(** * AI Image Enhancer: prompt compiler, preview filter, enhancement client
      and application state controller

    A shallow embedding of the TypeScript sources

      - [App.tsx]  (the controller: state, handlers, prompt construction,
        download, and the conditions under which each control is rendered),
      - [services/geminiService.ts]  (the enhancement client),
      - [components/ImageComparator.tsx]  (the preview filter),

    followed by the properties of the specification, each settled against
    these definitions.

    Conventions.  JavaScript numbers that come from the range sliders are
    integers and are modelled as [Z]; [toString] is the decimal rendering a
    template literal performs on such a number (valid below 10^21, where
    JavaScript switches to exponent notation).  A [string | null] state
    variable is an [option string]; JavaScript truthiness of such a value is
    [truthy].  The asynchronous call to the remote model is an explicit
    effect: a program is a tree whose nodes are the remote calls, and the
    controller keeps the suspended continuations of the requests in flight. *)

From Stdlib Require Import ZArith String Ascii List Bool Lia.
From Stdlib Require Import DecimalString DecimalPos DecimalZ.
Import ListNotations.

Open Scope string_scope.
Open Scope Z_scope.

(* ================================================================== *)
(** * JavaScript string primitives used by the sources *)
(* ================================================================== *)

Module Js.

(** [`${n}`] for an integer-valued number. *)
Definition toString (n : Z) : string :=
  NilZero.string_of_int (Z.to_int n).

(** [`${v}`] for an optional string property: [undefined] prints as such. *)
Definition show (v : option string) : string :=
  match v with
  | Some s => s
  | None => "undefined"
  end.

(** Truthiness of a [string | null] value: [null] and [""] are falsy. *)
Definition truthy (v : option string) : bool :=
  match v with
  | Some s => negb (String.eqb s "")
  | None => false
  end.

(** [hay.includes(needle)]. *)
Fixpoint includes (needle hay : string) : bool :=
  String.prefix needle hay ||
  match hay with
  | EmptyString => false
  | String _ rest => includes needle rest
  end.

(** [s.split(sep)] for a one-character separator. *)
Fixpoint splitOn (sep : ascii) (s : string) : list string :=
  match s with
  | EmptyString => [EmptyString]
  | String c rest =>
      if Ascii.eqb c sep then EmptyString :: splitOn sep rest
      else match splitOn sep rest with
           | [] => [String c EmptyString]
           | hd :: tl => String c hd :: tl
           end
  end.

(** [xs[i]], [undefined] out of range. *)
Definition at_ {A : Type} (xs : list A) (i : nat) : option A := nth_error xs i.

(** [xs.find(p)]. *)
Definition find {A : Type} (p : A -> bool) (xs : list A) : option A :=
  List.find p xs.

(** Occurrence test for one character. *)
Fixpoint hasChar (c : ascii) (s : string) : bool :=
  match s with
  | EmptyString => false
  | String d rest => Ascii.eqb d c || hasChar c rest
  end.

(** The characters a decimal rendering is made of. *)
Definition isDecimalChar (c : ascii) : bool := hasChar c "0123456789-".

End Js.

(* ================================================================== *)
(** * Shared data model *)
(* ================================================================== *)

(** [type AppState = 'idle' | 'loading' | 'success' | 'error'] *)
Inductive AppState : Type := Idle | Loading | Success | Error.

(** [type ArtisticEffect = 'none' | 'vintage' | 'bw' | 'sepia' | 'sketch'
     | 'oil-painting' | 'cartoon'] *)
Inductive ArtisticEffect : Type :=
  none | vintage | bw | sepia | sketch | oil_painting | cartoon.

Definition AppState_eqb (a b : AppState) : bool :=
  match a, b with
  | Idle, Idle | Loading, Loading | Success, Success | Error, Error => true
  | _, _ => false
  end.

(* ================================================================== *)
(** * Prompt compiler ([handleEnhanceClick], the [prompt] accumulation) *)
(* ================================================================== *)

Module Prompt.

Definition basePrompt : string :=
  "Fix this old and damaged photo. Improve its overall quality, and adjust the lighting and contrast to make it look more vibrant and clear.".

(** The body of [handleEnhanceClick] between [let prompt = ...] and the end
    of the [switch]: every [prompt += ...] rebinds [prompt]. *)
Definition compilePrompt (brightness contrast noiseReduction : Z)
                         (artisticEffect : ArtisticEffect) : string :=
  let prompt := basePrompt in
  let prompt :=
    if negb (brightness =? 100)
    then prompt ++ " Adjust the brightness to be around " ++ Js.toString brightness ++ "%."
    else prompt in
  let prompt :=
    if negb (contrast =? 100)
    then prompt ++ " Adjust the contrast to be around " ++ Js.toString contrast ++ "%."
    else prompt in
  let prompt :=
    if noiseReduction >? 0
    then prompt ++ " Apply noise reduction at an intensity of about " ++ Js.toString noiseReduction ++ "%."
    else prompt in
  match artisticEffect with
  | vintage => prompt ++ " Apply a vintage effect to the image."
  | bw => prompt ++ " Convert the image to artistic black and white, preserving details."
  | sepia => prompt ++ " Apply a warm sepia tone to the image."
  | sketch => prompt ++ " Turn the image into a pencil sketch, emphasizing lines and shading."
  | oil_painting => prompt ++ " Make the image look like an oil painting with visible brush strokes and rich colors."
  | cartoon => prompt ++ " Apply a cartoon effect to the image with vibrant colors and bold outlines."
  | none => prompt
  end.

(** ** The specification's reading: a base sentence and optional clauses *)

Definition brightnessClause (b : Z) : string :=
  " Adjust the brightness to be around " ++ Js.toString b ++ "%.".

Definition contrastClause (c : Z) : string :=
  " Adjust the contrast to be around " ++ Js.toString c ++ "%.".

Definition noiseClause (n : Z) : string :=
  " Apply noise reduction at an intensity of about " ++ Js.toString n ++ "%.".

Definition effectClause (e : ArtisticEffect) : option string :=
  match e with
  | none => None
  | vintage => Some " Apply a vintage effect to the image."
  | bw => Some " Convert the image to artistic black and white, preserving details."
  | sepia => Some " Apply a warm sepia tone to the image."
  | sketch => Some " Turn the image into a pencil sketch, emphasizing lines and shading."
  | oil_painting => Some " Make the image look like an oil painting with visible brush strokes and rich colors."
  | cartoon => Some " Apply a cartoon effect to the image with vibrant colors and bold outlines."
  end.

(** A clause that is present iff its condition holds. *)
Definition when (cond : bool) (clause : string) : option string :=
  if cond then Some clause else None.

(** The clauses of section 4.2, in their fixed order; [None] is an omitted
    clause. *)
Definition clauses (b c n : Z) (e : ArtisticEffect) : list (option string) :=
  [ when (negb (b =? 100)) (brightnessClause b);
    when (negb (c =? 100)) (contrastClause c);
    when (n >? 0) (noiseClause n);
    effectClause e ].

(** Omitted clauses contribute nothing at all. *)
Fixpoint present (cs : list (option string)) : list string :=
  match cs with
  | [] => []
  | Some s :: rest => s :: present rest
  | None :: rest => present rest
  end.

Definition specPrompt (b c n : Z) (e : ArtisticEffect) : string :=
  basePrompt ++ String.concat "" (present (clauses b c n e)).

End Prompt.

(* ================================================================== *)
(** * Preview filter compiler ([ImageComparator], [computedFilter]) *)
(* ================================================================== *)

Module Preview.

(** The [useMemo] body: the initial template literal, then the [switch]. *)
Definition computedFilter (brightness contrast : Z)
                          (artisticEffect : ArtisticEffect) : string :=
  let filter :=
    "brightness(" ++ Js.toString brightness ++ "%) contrast("
                  ++ Js.toString contrast ++ "%)" in
  match artisticEffect with
  | vintage => filter ++ " sepia(60%)"
  | bw => filter ++ " grayscale(100%)"
  | sepia => filter ++ " sepia(100%)"
  | sketch => filter ++ " grayscale(100%) contrast(150%) brightness(110%)"
  | oil_painting => filter ++ " saturate(180%) contrast(130%)"
  | cartoon => filter ++ " saturate(200%) contrast(150%)"
  | none => filter
  end.

(** ** The specification's reading: an ordered sequence of operations *)

Inductive FilterFn : Type :=
  FnBrightness | FnContrast | FnSepia | FnGrayscale | FnSaturate.

Record Op : Type := mkOp { fn : FilterFn; pct : Z }.

Definition fnName (f : FilterFn) : string :=
  match f with
  | FnBrightness => "brightness"
  | FnContrast => "contrast"
  | FnSepia => "sepia"
  | FnGrayscale => "grayscale"
  | FnSaturate => "saturate"
  end.

Definition fnOfName (s : string) : option FilterFn :=
  if String.eqb s "brightness" then Some FnBrightness
  else if String.eqb s "contrast" then Some FnContrast
  else if String.eqb s "sepia" then Some FnSepia
  else if String.eqb s "grayscale" then Some FnGrayscale
  else if String.eqb s "saturate" then Some FnSaturate
  else None.

(** The table of section 4.1. *)
Definition effectOps (e : ArtisticEffect) : list Op :=
  match e with
  | vintage => [mkOp FnSepia 60]
  | bw => [mkOp FnGrayscale 100]
  | sepia => [mkOp FnSepia 100]
  | sketch => [mkOp FnGrayscale 100; mkOp FnContrast 150; mkOp FnBrightness 110]
  | oil_painting => [mkOp FnSaturate 180; mkOp FnContrast 130]
  | cartoon => [mkOp FnSaturate 200; mkOp FnContrast 150]
  | none => []
  end.

Definition specOps (b c : Z) (e : ArtisticEffect) : list Op :=
  mkOp FnBrightness b :: mkOp FnContrast c :: effectOps e.

(** Writing an operation sequence as a CSS [filter] value. *)
Definition renderOp (o : Op) : string :=
  fnName (fn o) ++ "(" ++ Js.toString (pct o) ++ "%)".

Definition renderOps (os : list Op) : string :=
  String.concat " " (map renderOp os).

(** Reading a filter string back: operations are separated by one space,
    each is [name(<integer>%)]. *)
Definition parseOp (tok : string) : option Op :=
  match Js.splitOn "("%char tok with
  | [name; rest] =>
      match Js.splitOn "%"%char rest with
      | [num; ")"] =>
          match fnOfName name, NilZero.int_of_string num with
          | Some f, Some d => Some (mkOp f (Z.of_int d))
          | _, _ => None
          end
      | _ => None
      end
  | _ => None
  end.

Fixpoint parseOps (toks : list string) : option (list Op) :=
  match toks with
  | [] => Some []
  | t :: rest =>
      match parseOp t, parseOps rest with
      | Some o, Some os => Some (o :: os)
      | _, _ => None
      end
  end.

Definition parseFilter (s : string) : option (list Op) :=
  parseOps (Js.splitOn " "%char s).

End Preview.

(* ================================================================== *)
(** * Asynchronous programs *)
(* ================================================================== *)

(** ** The remote endpoint's data ([@google/genai] types, the fields the
       sources touch) *)

Module Remote.

(** [inlineData]: both fields are optional in the SDK's [Blob]. *)
Record Blob : Type := mkBlob { data : option string; mimeType : option string }.

Record Part : Type := mkPart { inlineData : option Blob; text : option string }.

Record Content : Type := mkContent { parts : option (list Part) }.

Record Candidate : Type := mkCandidate { content : option Content }.

Record Response : Type := mkResponse { candidates : option (list Candidate) }.

(** The argument of [ai.models.generateContent]. *)
Record Request : Type := mkRequest {
  model : string;
  imagePart : Blob;
  textPart : string;
  responseModalities : list string
}.

(** A value that can be thrown or rejected with: an [Error] instance with
    its [message], or anything that is not an [Error]. *)
Inductive Thrown : Type :=
| ErrorObj (message : string)
| NonError.

(** How the promise returned by [generateContent] settles. *)
Inductive Outcome : Type :=
| Fulfilled (response : Response)
| Rejected (reason : Thrown).

End Remote.

Module Async.

Import Remote.

(** An [async] function body: it finishes with a value, or it is suspended
    at an [await] of the remote call and continues with its outcome. *)
Inductive t (A : Type) : Type :=
| Done (a : A)
| Await (req : Request) (k : Outcome -> t A).

Arguments Done {A} a.
Arguments Await {A} req k.

Fixpoint bind {A B : Type} (p : t A) (f : A -> t B) : t B :=
  match p with
  | Done a => f a
  | Await req k => Await req (fun o => bind (k o) f)
  end.

(** Running a program to completion against a remote endpoint, with the log
    of the requests it sent. *)
Fixpoint run {A : Type} (remote : Request -> Outcome) (p : t A)
  : A * list Request :=
  match p with
  | Done a => (a, [])
  | Await req k =>
      let (a, log) := run remote (k (remote req)) in (a, req :: log)
  end.

(** How a promise of type [Promise<string>] settles. *)
Inductive Settled : Type :=
| Resolve (value : string)
| Reject (reason : Thrown).

(** Result of a [try] block. *)
Inductive Completion (A : Type) : Type :=
| Return (a : A)
| Throw (e : Thrown).

Arguments Return {A} a.
Arguments Throw {A} e.

End Async.

(* ================================================================== *)
(** * Enhancement client ([services/geminiService.ts]) *)
(* ================================================================== *)

Module Gemini.

Import Remote Async.

Definition rateLimitMessage : string :=
  "Request limit exceeded. Please try again later.".

Definition genericMessage : string :=
  "Failed to enhance the image. Please check the console for more details.".

Definition noImageMessage : string :=
  "No image found in the API response.".

(** Optional chaining [x?.f]. *)
Definition chain {A B : Type} (x : option A) (f : A -> option B) : option B :=
  match x with
  | Some a => f a
  | None => None
  end.

Definition isSome {A : Type} (x : option A) : bool :=
  match x with Some _ => true | None => false end.

(** [response.candidates?.[0]?.content?.parts?.find(part => part.inlineData)] *)
Definition imageResponsePart (response : Response) : option Part :=
  chain (chain (chain (chain (candidates response)
                             (fun cs => Js.at_ cs 0))
                      content)
               parts)
        (Js.find (fun part => isSome (inlineData part))).

Definition request (base64ImageData : option string) (mimeType prompt : string)
  : Request :=
  {| model := "gemini-2.5-flash-image";
     imagePart := {| data := base64ImageData; mimeType := Some mimeType |};
     textPart := prompt;
     responseModalities := ["IMAGE"] |}.

(** The [try] block after the [await]: the awaited promise's rejection is
    thrown, otherwise the response is searched for the image part. *)
Definition tryBlock (o : Outcome) : Completion string :=
  match o with
  | Rejected reason => Throw reason
  | Fulfilled response =>
      match imageResponsePart response with
      | Some part =>
          match inlineData part with
          | Some blob =>
              Return ("data:" ++ Js.show (mimeType blob) ++ ";base64,"
                              ++ Js.show (data blob))
          | None => Throw (ErrorObj noImageMessage)
          end
      | None => Throw (ErrorObj noImageMessage)
      end
  end.

(** The [catch] block ([console.error] has no effect on the result):
    it always throws a fresh [Error]. *)
Definition isRateLimit (error : Thrown) : bool :=
  match error with
  | ErrorObj message => Js.includes "429" message  (* error instanceof Error && ... *)
  | NonError => false
  end.

Definition catchBlock (error : Thrown) : Thrown :=
  if isRateLimit error then ErrorObj rateLimitMessage
  else ErrorObj genericMessage.

Definition settle (o : Outcome) : Settled :=
  match tryBlock o with
  | Return v => Resolve v
  | Throw e => Reject (catchBlock e)
  end.

Definition enhanceImageWithGemini
  (base64ImageData : option string) (mimeType prompt : string) : Async.t Settled :=
  Await (request base64ImageData mimeType prompt)
        (fun o => Done (settle o)).

(** Used by the statements about responses: some part of some candidate
    carries inline image data. *)
Definition partsOf (c : Candidate) : list Part :=
  match chain (content c) parts with
  | Some ps => ps
  | None => []
  end.

Definition carriesImage (response : Response) : bool :=
  match candidates response with
  | Some cs => existsb (fun c => existsb (fun p => isSome (inlineData p)) (partsOf c)) cs
  | None => false
  end.

End Gemini.
(* ================================================================== *)
(** * Application state controller ([App]) *)
(* ================================================================== *)

Module App.

Import Remote Async.

(** The nine [useState] cells. *)
Record State : Type := mkState {
  originalImage : option string;
  originalMimeType : option string;
  enhancedImage : option string;
  appState : AppState;
  error : option string;
  brightness : Z;
  contrast : Z;
  noiseReduction : Z;
  artisticEffect : ArtisticEffect
}.

Definition initial : State :=
  {| originalImage := None; originalMimeType := None; enhancedImage := None;
     appState := Idle; error := None;
     brightness := 100; contrast := 100; noiseReduction := 0;
     artisticEffect := none |}.

(** ** State setters *)

Definition setOriginalImage (v : option string) (s : State) : State :=
  mkState v (originalMimeType s) (enhancedImage s) (appState s) (error s)
          (brightness s) (contrast s) (noiseReduction s) (artisticEffect s).

Definition setOriginalMimeType (v : option string) (s : State) : State :=
  mkState (originalImage s) v (enhancedImage s) (appState s) (error s)
          (brightness s) (contrast s) (noiseReduction s) (artisticEffect s).

Definition setEnhancedImage (v : option string) (s : State) : State :=
  mkState (originalImage s) (originalMimeType s) v (appState s) (error s)
          (brightness s) (contrast s) (noiseReduction s) (artisticEffect s).

Definition setAppState (v : AppState) (s : State) : State :=
  mkState (originalImage s) (originalMimeType s) (enhancedImage s) v (error s)
          (brightness s) (contrast s) (noiseReduction s) (artisticEffect s).

Definition setError (v : option string) (s : State) : State :=
  mkState (originalImage s) (originalMimeType s) (enhancedImage s) (appState s) v
          (brightness s) (contrast s) (noiseReduction s) (artisticEffect s).

Definition setBrightness (v : Z) (s : State) : State :=
  mkState (originalImage s) (originalMimeType s) (enhancedImage s) (appState s)
          (error s) v (contrast s) (noiseReduction s) (artisticEffect s).

Definition setContrast (v : Z) (s : State) : State :=
  mkState (originalImage s) (originalMimeType s) (enhancedImage s) (appState s)
          (error s) (brightness s) v (noiseReduction s) (artisticEffect s).

Definition setNoiseReduction (v : Z) (s : State) : State :=
  mkState (originalImage s) (originalMimeType s) (enhancedImage s) (appState s)
          (error s) (brightness s) (contrast s) v (artisticEffect s).

Definition setArtisticEffect (v : ArtisticEffect) (s : State) : State :=
  mkState (originalImage s) (originalMimeType s) (enhancedImage s) (appState s)
          (error s) (brightness s) (contrast s) (noiseReduction s) v.

(** Statements of a handler, executed top to bottom. *)
Notation "s |> f" := (f s) (at level 45, left associativity, only parsing).

(** ** Handlers *)

Definition handleResetSettings (s : State) : State :=
  s |> setBrightness 100
    |> setContrast 100
    |> setNoiseReduction 0
    |> setArtisticEffect none.

(** [reader.onloadend] of [handleFileSelect]; [result] is [reader.result],
    [fileType] is [file.type]. *)
Definition onloadend (result : option string) (fileType : string) (s : State)
  : State :=
  s |> setOriginalImage result
    |> setOriginalMimeType (Some fileType)
    |> setEnhancedImage None
    |> setError None
    |> setAppState Idle
    |> handleResetSettings.

(** [reader.onerror] of [handleFileSelect]. *)
Definition onerror (s : State) : State :=
  s |> setError (Some "Error reading the file.")
    |> setAppState Error.

Definition handleReset (s : State) : State :=
  s |> setOriginalImage None
    |> setEnhancedImage None
    |> setOriginalMimeType None
    |> setError None
    |> setAppState Idle
    |> handleResetSettings.

Definition validationMessage : string := "Please select an image first.".

Definition unexpectedMessage : string :=
  "An unexpected error occurred while enhancing the image.".

(** The rest of [handleEnhanceClick] once the awaited client call settled:
    the end of the [try] block, or the [catch] block.  The setters act on the
    state that is current when the promise settles. *)
Definition afterEnhance (settled : Settled) (s : State) : State :=
  match settled with
  | Resolve result =>
      s |> setEnhancedImage (Some result)
        |> setAppState Success
  | Reject err =>
      s |> setError (Some match err with
                          | ErrorObj message => message
                          | NonError => unexpectedMessage
                          end)
        |> setAppState Error
  end.

(** [originalImage.split(',')[1]] *)
Definition base64Data (originalImage : string) : option string :=
  Js.at_ (Js.splitOn ","%char originalImage) 1.

(** [handleEnhanceClick]: the state after its synchronous part, and the
    asynchronous remainder when the guard lets the call through. *)
Definition handleEnhanceClick (s : State)
  : State * option (Async.t (State -> State)) :=
  let invalid :=
    (s |> setError (Some validationMessage) |> setAppState Error, None) in
  if negb (Js.truthy (originalImage s)) || negb (Js.truthy (originalMimeType s))
  then invalid
  else
    match originalImage s, originalMimeType s with
    | Some image, Some mime =>
        let s' := s |> setAppState Loading
                    |> setError None
                    |> setEnhancedImage None in
        let prompt := Prompt.compilePrompt (brightness s) (contrast s)
                        (noiseReduction s) (artisticEffect s) in
        (s', Some (Async.bind
                     (Gemini.enhanceImageWithGemini (base64Data image) mime prompt)
                     (fun settled => Done (afterEnhance settled))))
    | _, _ => invalid  (* past the guard both are strings *)
    end.

(** The anchor element [handleDownload] creates and clicks. *)
Record Link : Type := mkLink { href : string; download : string }.

(** [handleDownload]; [now] is [Date.now()]. *)
Definition handleDownload (now : Z) (s : State) : option Link :=
  if negb (Js.truthy (enhancedImage s)) then None
  else
    match enhancedImage s with
    | Some image =>
        Some {| href := image;
                download := "enhanced-image-" ++ Js.toString now ++ ".png" |}
    | None => None  (* past the guard it is a string *)
    end.

(** ** The running application *)

(** The component state, the continuations of the calls that are awaiting
    the remote endpoint, the requests sent so far and the files exported. *)
Record Sys : Type := mkSys {
  ui : State;
  inflight : list (Outcome -> Async.t (State -> State));
  sent : list Request;
  exported : list Link
}.

Definition start : Sys :=
  {| ui := initial; inflight := []; sent := []; exported := [] |}.

(** Start (or resume) an asynchronous body: it runs until it finishes, and
    then applies its state updates, or until its next [await], where the
    request is sent and the continuation is parked. *)
Definition spawn (p : Async.t (State -> State)) (sys : Sys) : Sys :=
  match p with
  | Done update =>
      mkSys (update (ui sys)) (inflight sys) (sent sys) (exported sys)
  | Await req k =>
      mkSys (ui sys) (inflight sys ++ [k]) (sent sys ++ [req]) (exported sys)
  end.

Fixpoint removeAt {A : Type} (i : nat) (xs : list A) : list A :=
  match i, xs with
  | _, [] => []
  | O, _ :: rest => rest
  | S j, x :: rest => x :: removeAt j rest
  end.

Inductive Event : Type :=
| ReaderLoadEnd (result : option string) (fileType : string)
| ReaderError
| EnhanceClick
| StartOver
| ResetSettings
| SlideBrightness (v : Z)
| SlideContrast (v : Z)
| SlideNoiseReduction (v : Z)
| PickEffect (e : ArtisticEffect)
| DownloadClick (now : Z)
| Settle (i : nat) (o : Outcome).

Definition withUi (f : State -> State) (sys : Sys) : Sys :=
  mkSys (f (ui sys)) (inflight sys) (sent sys) (exported sys).

Definition step (ev : Event) (sys : Sys) : Sys :=
  match ev with
  | ReaderLoadEnd result fileType => withUi (onloadend result fileType) sys
  | ReaderError => withUi onerror sys
  | EnhanceClick =>
      let (s', task) := handleEnhanceClick (ui sys) in
      let sys' := withUi (fun _ => s') sys in
      match task with
      | Some p => spawn p sys'
      | None => sys'
      end
  | StartOver => withUi handleReset sys
  | ResetSettings => withUi handleResetSettings sys
  | SlideBrightness v => withUi (setBrightness v) sys
  | SlideContrast v => withUi (setContrast v) sys
  | SlideNoiseReduction v => withUi (setNoiseReduction v) sys
  | PickEffect e => withUi (setArtisticEffect e) sys
  | DownloadClick now =>
      match handleDownload now (ui sys) with
      | Some link =>
          mkSys (ui sys) (inflight sys) (sent sys) (exported sys ++ [link])
      | None => sys
      end
  | Settle i o =>
      match nth_error (inflight sys) i with
      | Some k =>
          spawn (k o)
                (mkSys (ui sys) (removeAt i (inflight sys)) (sent sys)
                       (exported sys))
      | None => sys
      end
  end.

Definition steps (evs : list Event) (sys : Sys) : Sys :=
  fold_left (fun acc ev => step ev acc) evs sys.

(** ** What the rendered interface offers

    The JSX of [App]: the uploader is shown while [originalImage] is falsy,
    everything else while it is truthy; the enhance button only when the
    status is not [loading]; the download button only on [success] with an
    enhanced image; the sliders with their [min] and [max].  Callbacks of the
    file reader and settlements of requests are not user actions: they can
    arrive in any state. *)
Definition inRange (lo hi v : Z) : bool := (lo <=? v) && (v <=? hi).

Definition offered (s : State) (ev : Event) : bool :=
  match ev with
  | ReaderLoadEnd _ _ | ReaderError | Settle _ _ => true
  | EnhanceClick =>
      Js.truthy (originalImage s) && negb (AppState_eqb (appState s) Loading)
  | StartOver | ResetSettings | PickEffect _ => Js.truthy (originalImage s)
  | SlideBrightness v | SlideContrast v =>
      Js.truthy (originalImage s) && inRange 50 150 v
  | SlideNoiseReduction v => Js.truthy (originalImage s) && inRange 0 100 v
  | DownloadClick _ =>
      Js.truthy (originalImage s) && AppState_eqb (appState s) Success
      && Js.truthy (enhancedImage s)
  end.

(** States the application can be in. *)
Inductive reachable : Sys -> Prop :=
| reach_start : reachable start
| reach_step sys ev :
    reachable sys -> offered (ui sys) ev = true -> reachable (step ev sys).

(** A trace all of whose events are offered when they happen. *)
Fixpoint allOffered (evs : list Event) (sys : Sys) : bool :=
  match evs with
  | [] => true
  | ev :: rest => offered (ui sys) ev && allOffered rest (step ev sys)
  end.

Definition defaults (s : State) : Prop :=
  brightness s = 100 /\ contrast s = 100 /\ noiseReduction s = 0
  /\ artisticEffect s = none.

End App.

(* ================================================================== *)
(** * What is on screen ([App]'s JSX and [ImageComparator]'s) *)
(* ================================================================== *)

Module View.

Import App.

(** The parts of the rendered tree that depend on the state.  While
    [originalImage] is falsy only the uploader is rendered. *)
Record t : Type := mkView {
  uploader : bool;               (* <FileUploader/> *)
  spinner : bool;                (* the "Enhancing..." overlay *)
  previewFilter : option string; (* style.filter of the original image *)
  enhancedPanel : option string; (* src of the enhanced <img>, else the placeholder *)
  errorText : option string;     (* the red paragraph *)
  enhanceButton : bool;
  downloadButton : bool;
  startOverButton : bool
}.

Definition render (s : State) : t :=
  if negb (Js.truthy (originalImage s)) then
    mkView true false None None None false false false
  else
    {| uploader := false;
       spinner := AppState_eqb (appState s) Loading;
       previewFilter :=
         Some (Preview.computedFilter (brightness s) (contrast s)
                                      (artisticEffect s));
       enhancedPanel :=
         if Js.truthy (enhancedImage s) then enhancedImage s else None;
       errorText := if Js.truthy (error s) then error s else None;
       enhanceButton := negb (AppState_eqb (appState s) Loading);
       downloadButton :=
         AppState_eqb (appState s) Success && Js.truthy (enhancedImage s);
       startOverButton := true |}.

End View.

(* ================================================================== *)
(** * Properties the controller keeps *)
(* ================================================================== *)

Module Safety.

Import Remote Async App.

(** The messages the controller can display. *)
Definition fileErrorMessage : string := "Error reading the file.".

Definition displayedMessages : list string :=
  [ fileErrorMessage; validationMessage;
    Gemini.rateLimitMessage; Gemini.genericMessage ].

Definition ErrorKnown (s : State) : Prop :=
  forall message, error s = Some message -> In message displayedMessages.

(** A string of the shape the client resolves with. *)
Definition isDataUrl (url : string) : Prop :=
  exists mime payload, url = "data:" ++ mime ++ ";base64," ++ payload.

Definition EnhancedIsDataUrl (s : State) : Prop :=
  forall url, enhancedImage s = Some url -> isDataUrl url.

(** The image and its MIME type are stored together. *)
Definition MimePaired (s : State) : Prop :=
  originalImage s <> None -> originalMimeType s <> None.

(** A request as the controller sends it. *)
Definition WellFormed (req : Request) : Prop :=
  model req = "gemini-2.5-flash-image"
  /\ responseModalities req = ["IMAGE"]
  /\ (exists fileType, mimeType (imagePart req) = Some fileType
                       /\ fileType <> ""%string)
  /\ (exists b c n e,
        50 <= b <= 150 /\ 50 <= c <= 150 /\ 0 <= n <= 100
        /\ textPart req = Prompt.compilePrompt b c n e).

(** The state a finished file read leaves. *)
Definition loaded (result : option string) (fileType : string) : State :=
  mkState result (Some fileType) None Idle None 100 100 0 none.

End Safety.

(* ================================================================== *)
(** * The specification's statements about the controller and the export *)
(* ================================================================== *)

Module Spec.

Import Remote Async App.

(** ** Section 3, the invariant as the specification words it *)
Definition StatedInvariant (s : State) : Prop :=
  (enhancedImage s <> None -> appState s = Success)
  /\ (error s <> None -> appState s = Error)
  /\ (originalImage s = None -> defaults s /\ appState s = Idle).

(** The invariant the controller maintains. *)
Definition Invariant (s : State) : Prop :=
  (enhancedImage s <> None -> appState s = Success \/ appState s = Error)
  /\ (error s <> None -> appState s = Error \/ appState s = Success)
  /\ (originalImage s = None -> defaults s /\ appState s <> Loading).

(** What the proof carries along: the status tells what is cleared, the
    settings are untouched while no image is shown, and every parked
    continuation is the tail of [handleEnhanceClick]. *)
Definition Core (s : State) : Prop :=
  (appState s = Idle \/ appState s = Loading ->
     enhancedImage s = None /\ error s = None)
  /\ (appState s = Loading ->
      Js.truthy (originalImage s) = true
      /\ Js.truthy (originalMimeType s) = true)
  /\ (Js.truthy (originalImage s) = false -> defaults s).

(** The ranges of section 3, which the sliders enforce. *)
Definition InRange (s : State) : Prop :=
  50 <= brightness s <= 150 /\ 50 <= contrast s <= 150
  /\ 0 <= noiseReduction s <= 100.

Definition Parked (k : Outcome -> Async.t (State -> State)) : Prop :=
  forall o, k o = Done (afterEnhance (Gemini.settle o)).

Definition SysInvariant (sys : Sys) : Prop :=
  Core (ui sys) /\ Forall Parked (inflight sys).

(** ** Section 5 and the design notes: a guard in the handler itself *)

(** Invoking the enhance action while a request is loading sends nothing. *)
Definition SingleFlightGuard : Prop :=
  forall sys, reachable sys -> appState (ui sys) = Loading ->
    sent (step EnhanceClick sys) = sent sys.

(** After a reset, the settlement of a request sent before it leaves the
    state as the reset left it. *)
Definition Freshness : Prop :=
  forall sys, reachable sys ->
  forall i o, (i < length (inflight sys))%nat ->
    ui (step (Settle i o) (step StartOver sys)) = ui (step StartOver sys).

(** ** Section 6, the export surface *)

Fixpoint drop (n : nat) (s : string) : string :=
  match n, s with
  | O, _ => s
  | S m, String _ rest => drop m rest
  | S _, EmptyString => EmptyString
  end.

(** The MIME type a data URL [data:<mime>;base64,<payload>] declares. *)
Definition declaredMime (blob : string) : option string :=
  if String.prefix "data:" blob
  then Js.at_ (Js.splitOn ";"%char (drop 5 blob)) 0
  else None.

(** The extension of a file name: what follows its last dot. *)
Definition extension (fileName : string) : option string :=
  match Js.splitOn "."%char fileName with
  | [] | [_] => None
  | fields => Some (List.last fields EmptyString)
  end.

(** The customary file extensions of the image types the remote model can
    return. *)
Definition extensionsFor (mime : string) : list string :=
  if String.eqb mime "image/png" then ["png"]
  else if String.eqb mime "image/jpeg" then ["jpg"; "jpeg"]
  else if String.eqb mime "image/webp" then ["webp"]
  else if String.eqb mime "image/gif" then ["gif"]
  else [].

(** The export as the specification words it: the name is
    [enhanced-image-<timestamp>] with an extension that fits the MIME type
    of the enhanced image. *)
Definition ExportFollowsMime : Prop :=
  forall now s image mime,
    enhancedImage s = Some image ->
    declaredMime image = Some mime ->
    extensionsFor mime <> [] ->
    exists link ext,
      handleDownload now s = Some link
      /\ download link = "enhanced-image-" ++ Js.toString now ++ "." ++ ext
      /\ In ext (extensionsFor mime).

(** ** Section 4.3, the errors the remote call can fail with *)




(** ** Section 5, single flight through the interface *)

(** The events that end a session from outside the request: Start Over and
    the callbacks of the file reader. *)
Definition interrupts (ev : Event) : bool :=
  match ev with
  | StartOver | ReaderLoadEnd _ _ | ReaderError => true
  | _ => false
  end.

(** States reached through the interface when Start Over and the file
    reader's callbacks arrive only while no request is in flight. *)
Inductive undisturbed : Sys -> Prop :=
| undisturbed_start : undisturbed start
| undisturbed_step sys ev :
    undisturbed sys -> offered (ui sys) ev = true ->
    (interrupts ev = true -> inflight sys = []) ->
    undisturbed (step ev sys).

End Spec.

(** * Sample values *)

Module Sample.

Import Remote Async App.

Definition pngImage : string := "data:image/png;base64,iVBORw0KGgoAAAANSUhEUg".

Definition jpegBlob : Blob :=
  {| data := Some "/9j/4AAQSkZJRgABAQ"; mimeType := Some "image/jpeg" |}.

Definition jpegUrl : string := "data:image/jpeg;base64,/9j/4AAQSkZJRgABAQ".

(** A response whose first candidate has a text part, then a jpeg part. *)
Definition jpegResponse : Response :=
  {| candidates := Some
       [ {| content := Some {| parts := Some
              [ {| inlineData := None; text := Some "Here is the photo." |};
                {| inlineData := Some jpegBlob; text := None |} ] |} |} ] |}.

(** A response with text only. *)
Definition textResponse : Response :=
  {| candidates := Some
       [ {| content := Some {| parts := Some
              [ {| inlineData := None; text := Some "I cannot do that." |} ] |} |} ] |}.

Definition quotaError : Thrown :=
  ErrorObj "got status: 429 Too Many Requests. RESOURCE_EXHAUSTED".

Definition unrelatedError : Thrown :=
  ErrorObj "Image 4291 exceeds the maximum size".

Definition networkError : Thrown := ErrorObj "fetch failed".


(** An image has been uploaded. *)
Definition uploaded : Sys := steps [ReaderLoadEnd (Some pngImage) "image/png"] start.

(** An enhancement of it is loading. *)
Definition enhancing : Sys := steps [EnhanceClick] uploaded.

(** A jpeg has been received. *)
Definition enhanced : Sys := steps [Settle 0 (Fulfilled jpegResponse)] enhancing.

(** Upload, enhance, start over while the request is in flight, and the
    request then succeeds. *)
Definition lateSuccess : list Event :=
  [ ReaderLoadEnd (Some pngImage) "image/png";
    EnhanceClick;
    StartOver;
    Settle 0 (Fulfilled jpegResponse) ].

End Sample.

(* ================================================================== *)
(** * Facts about the string primitives *)
(* ================================================================== *)

Section StringFacts.

Lemma append_assoc (a b c : string) : ((a ++ b) ++ c = a ++ (b ++ c))%string.
Proof. induction a as [|x a IH]; simpl; [reflexivity | now rewrite IH]. Qed.

Lemma append_nil_r (a : string) : (a ++ "" = a)%string.
Proof. induction a as [|x a IH]; simpl; [reflexivity | now rewrite IH]. Qed.

Lemma length_append (a b : string) :
  String.length (a ++ b) = (String.length a + String.length b)%nat.
Proof. induction a as [|x a IH]; simpl; [reflexivity | now rewrite IH]. Qed.

Lemma append_eq_self (a b : string) : (a ++ b)%string = a -> b = ""%string.
Proof.
  intros H. apply (f_equal String.length) in H. rewrite length_append in H.
  destruct b; [reflexivity | simpl in H; lia].
Qed.

Lemma concat_cons (sep x y : string) (l : list string) :
  String.concat sep (x :: y :: l)
  = (x ++ sep ++ String.concat sep (y :: l))%string.
Proof. reflexivity. Qed.

Lemma prefix_append (a b : string) : String.prefix a (a ++ b) = true.
Proof.
  induction a as [|x a IH]; simpl; [now destruct b |].
  destruct (ascii_dec x x) as [_|ne]; [exact IH | now elim ne].
Qed.

Lemma hasChar_append (c : ascii) (a b : string) :
  Js.hasChar c (a ++ b) = Js.hasChar c a || Js.hasChar c b.
Proof.
  induction a as [|x a IH]; simpl; [reflexivity |].
  now rewrite IH, orb_assoc.
Qed.

(** No separator, no split. *)
Lemma splitOn_absent (c : ascii) (s : string) :
  Js.hasChar c s = false -> Js.splitOn c s = [s].
Proof.
  induction s as [|x s IH]; simpl; [reflexivity |].
  intros H. apply orb_false_iff in H as [Hx Hs].
  rewrite Hx, (IH Hs). reflexivity.
Qed.

(** The first field ends at the first separator. *)
Lemma splitOn_first (c : ascii) (a b : string) :
  Js.hasChar c a = false ->
  Js.splitOn c (a ++ String c b) = a :: Js.splitOn c b.
Proof.
  induction a as [|x a IH]; simpl.
  - intros _. now rewrite Ascii.eqb_refl.
  - intros H. apply orb_false_iff in H as [Hx Ha].
    rewrite Hx, (IH Ha). reflexivity.
Qed.

Lemma uint_chars (c : ascii) (d : Decimal.uint) :
  Js.isDecimalChar c = false -> Js.hasChar c (NilEmpty.string_of_uint d) = false.
Proof.
  unfold Js.isDecimalChar. simpl. intros H.
  repeat (apply orb_false_iff in H as [? H]).
  induction d; simpl; try reflexivity; rewrite IHd, orb_false_r; assumption.
Qed.

Lemma toString_chars (c : ascii) (n : Z) :
  Js.isDecimalChar c = false -> Js.hasChar c (Js.toString n) = false.
Proof.
  intros H. unfold Js.toString.
  assert (U : forall d, Js.hasChar c (NilZero.string_of_uint d) = false).
  { intros d. pose proof (uint_chars c d H) as Hd.
    destruct d; try exact Hd. simpl. rewrite orb_false_r.
    unfold Js.isDecimalChar in H. simpl in H.
    now apply orb_false_iff in H as [? _]. }
  destruct (Z.to_int n) as [d|d]; simpl; [apply U |].
  rewrite U, orb_false_r.
  unfold Js.isDecimalChar in H. simpl in H.
  repeat (apply orb_false_iff in H as [? H]). assumption.
Qed.

(** Reading a rendered integer gives the integer back. *)
Lemma toString_read (n : Z) :
  option_map Z.of_int (NilZero.int_of_string (Js.toString n)) = Some n.
Proof.
  unfold Js.toString. rewrite NilZero.isi.
  - simpl. now rewrite DecimalZ.of_to.
  - destruct n; simpl; try discriminate.
    intros E. injection E as E. now apply Unsigned.to_uint_nonnil in E.
  - destruct n; simpl; try discriminate.
    intros E. injection E as E. now apply Unsigned.to_uint_nonnil in E.
Qed.

Lemma prefix_spec (a s : string) :
  String.prefix a s = true <-> exists rest, s = (a ++ rest)%string.
Proof.
  revert s. induction a as [|x a IH]; intros s; simpl.
  - split; [intros _; now exists s | now destruct s].
  - destruct s as [|y s]; simpl.
    + split; [discriminate | intros [rest E]; discriminate E].
    + destruct (ascii_dec x y) as [->|ne].
      * rewrite IH. split; intros [rest E]; exists rest.
        -- now rewrite E.
        -- now injection E.
      * split; [discriminate |]. intros [rest E]. injection E as E _.
        now elim ne.
Qed.

(** [includes] finds the needle wherever it occurs. *)
Lemma includes_spec (needle hay : string) :
  Js.includes needle hay = true
  <-> exists before after, hay = (before ++ needle ++ after)%string.
Proof.
  induction hay as [|y hay IH]; cbn [Js.includes].
  - rewrite orb_false_r, prefix_spec. split.
    + intros [rest E]. now exists ""%string, rest.
    + intros (before & after & E). destruct before; simpl in E.
      * now exists after.
      * discriminate E.
  - rewrite orb_true_iff, prefix_spec, IH. split.
    + intros [[rest E] | (before & after & E)].
      * now exists ""%string, rest.
      * exists (String y before), after. simpl. now rewrite E.
    + intros (before & after & E). destruct before as [|x before]; simpl in E.
      * left. now exists after.
      * right. injection E as _ E. now exists before, after.
Qed.

End StringFacts.

(* ================================================================== *)
(** * Prompt compiler *)
(* ================================================================== *)

Section PromptCompiler.

Import Prompt.

(** The accumulation of the source and the clause list of the specification
    build the same string. *)
Lemma compilePrompt_specPrompt (b c n : Z) (e : ArtisticEffect) :
  compilePrompt b c n e = specPrompt b c n e.
Proof.
  unfold compilePrompt, specPrompt, clauses, when.
  unfold brightnessClause, contrastClause, noiseClause.
  destruct (negb (b =? 100)), (negb (c =? 100)), (n >? 0), e;
    cbn [present effectClause String.concat];
    rewrite ?append_assoc, ?append_nil_r; reflexivity.
Qed.

(** Nothing is appended exactly when every clause is omitted. *)
Lemma present_clauses_nil (b c n : Z) (e : ArtisticEffect) :
  String.concat "" (present (clauses b c n e)) = ""%string ->
  (b =? 100) = true /\ (c =? 100) = true /\ (n >? 0) = false /\ e = none.
Proof.
  unfold clauses, when, brightnessClause, contrastClause, noiseClause.
  destruct (b =? 100), (c =? 100), (n >? 0), e;
    cbn [negb present effectClause String.concat];
    intros H; try discriminate H; repeat split; reflexivity.
Qed.

End PromptCompiler.

(** C1.  For brightness and contrast in [50,150], noise reduction in
    [0,100] and any effect, the prompt is the base sentence followed by the
    clauses that are present, in the order brightness, contrast, noise
    reduction, effect: the brightness clause is there iff brightness is not
    100, the contrast clause iff contrast is not 100, the noise clause iff
    noise reduction is positive, the effect clause iff the effect is not
    [none].  An omitted clause contributes no character, so the prompt is the
    bare base sentence exactly at the defaults. *)
Theorem C1_prompt_is_base_then_clauses (b c n : Z) (e : ArtisticEffect) :
  50 <= b <= 150 -> 50 <= c <= 150 -> 0 <= n <= 100 ->
  Prompt.compilePrompt b c n e
  = Prompt.basePrompt
      ++ String.concat ""
           (Prompt.present
              [ Prompt.when (negb (b =? 100)) (Prompt.brightnessClause b);
                Prompt.when (negb (c =? 100)) (Prompt.contrastClause c);
                Prompt.when (n >? 0) (Prompt.noiseClause n);
                Prompt.effectClause e ])
  /\ (Prompt.effectClause e = None <-> e = none)
  /\ (Prompt.compilePrompt b c n e = Prompt.basePrompt
      <-> b = 100 /\ c = 100 /\ n = 0 /\ e = none).
Proof.
  intros Hb Hc Hn. split; [apply compilePrompt_specPrompt |]. split.
  - destruct e; simpl; split; intros H; try discriminate H; reflexivity.
  - split.
    + intros H. rewrite compilePrompt_specPrompt in H.
      apply append_eq_self, present_clauses_nil in H.
      destruct H as (B & C & N & E).
      apply Z.eqb_eq in B. apply Z.eqb_eq in C.
      rewrite Z.gtb_ltb in N. apply Z.ltb_ge in N.
      repeat split; try assumption. lia.
    + intros (-> & -> & -> & ->). reflexivity.
Qed.

Lemma C1_prompt_witness :
  (50 <= 120 <= 150 /\ 50 <= 80 <= 150 /\ 0 <= 30 <= 100)
  /\ Prompt.compilePrompt 120 80 30 sepia
     = (Prompt.basePrompt
          ++ " Adjust the brightness to be around 120%."
          ++ " Adjust the contrast to be around 80%."
          ++ " Apply noise reduction at an intensity of about 30%."
          ++ " Apply a warm sepia tone to the image.")%string.
Proof.
  split; [lia |].
  destruct (C1_prompt_is_base_then_clauses 120 80 30 sepia) as [H _];
    [lia | lia | lia |].
  rewrite H. reflexivity.
Defined.

Example prompt_defaults :
  Prompt.compilePrompt 100 100 0 none = Prompt.basePrompt.
Proof. reflexivity. Qed.

(* ================================================================== *)
(** * Preview filter compiler *)
(* ================================================================== *)

Section PreviewFilter.

Import Preview.

(** The filter string is the rendering of the specified operations. *)
Lemma computedFilter_renderOps (b c : Z) (e : ArtisticEffect) :
  computedFilter b c e = renderOps (specOps b c e).
Proof.
  unfold computedFilter, renderOps, specOps, renderOp.
  destruct e; cbn [effectOps map String.concat fn pct fnName];
    rewrite ?append_assoc; cbn; rewrite ?append_assoc; reflexivity.
Qed.

Lemma fnName_chars (f : FilterFn) :
  Js.hasChar "("%char (fnName f) = false /\ Js.hasChar " "%char (fnName f) = false.
Proof. destruct f; split; reflexivity. Qed.

Lemma fnOfName_fnName (f : FilterFn) : fnOfName (fnName f) = Some f.
Proof. destruct f; reflexivity. Qed.

(** One operation reads back as itself. *)
Lemma parseOp_renderOp (o : Op) : parseOp (renderOp o) = Some o.
Proof.
  destruct o as [f z]. unfold parseOp, renderOp. cbn [fn pct].
  change ("(" ++ Js.toString z ++ "%)")%string
    with (String "("%char (Js.toString z ++ "%)")).
  rewrite splitOn_first by apply fnName_chars.
  rewrite (splitOn_absent "("%char (Js.toString z ++ "%)")).
  2:{ rewrite hasChar_append, toString_chars by reflexivity. reflexivity. }
  change (Js.toString z ++ "%)")%string
    with (Js.toString z ++ String "%"%char ")")%string.
  rewrite splitOn_first by (apply toString_chars; reflexivity).
  cbn [Js.splitOn Ascii.eqb Bool.eqb].
  rewrite fnOfName_fnName.
  pose proof (toString_read z) as R.
  destruct (NilZero.int_of_string (Js.toString z)) as [d|]; [| discriminate R].
  simpl in R. injection R as ->. reflexivity.
Qed.

Lemma renderOp_no_space (o : Op) : Js.hasChar " "%char (renderOp o) = false.
Proof.
  destruct o as [f z]. unfold renderOp. cbn [fn pct].
  rewrite !hasChar_append, toString_chars by reflexivity.
  destruct (fnName_chars f) as [_ ->]. reflexivity.
Qed.

(** A non-empty operation sequence reads back as itself. *)
Lemma parseFilter_renderOps (o : Op) (os : list Op) :
  parseFilter (renderOps (o :: os)) = Some (o :: os).
Proof.
  unfold parseFilter, renderOps. revert o.
  induction os as [|o' os IH]; intros o.
  - cbn [map String.concat].
    rewrite splitOn_absent by apply renderOp_no_space.
    cbn [parseOps]. now rewrite parseOp_renderOp.
  - specialize (IH o'). cbn [map] in IH |- *. rewrite concat_cons.
    set (rest := String.concat " " (renderOp o' :: map renderOp os)) in *.
    change (" " ++ rest)%string with (String " "%char rest).
    rewrite splitOn_first by apply renderOp_no_space.
    cbn [parseOps]. rewrite parseOp_renderOp, IH. reflexivity.
Qed.

End PreviewFilter.

(** C5.  For every brightness, contrast and effect the preview filter is a
    function of its three inputs whose value reads as the operation sequence
    brightness(b%), contrast(c%) followed by the operations of the effect
    table of section 4.1 (vintage: sepia 60; bw: grayscale 100; sepia:
    sepia 100; sketch: grayscale 100, contrast 150, brightness 110;
    oil-painting: saturate 180, contrast 130; cartoon: saturate 200,
    contrast 150; none: nothing), so it has 2 plus 0 to 3 operations. *)
Theorem C5_preview_filter_operations (b c : Z) (e : ArtisticEffect) :
  let table :=
    match e with
    | vintage => [Preview.mkOp Preview.FnSepia 60]
    | bw => [Preview.mkOp Preview.FnGrayscale 100]
    | sepia => [Preview.mkOp Preview.FnSepia 100]
    | sketch => [Preview.mkOp Preview.FnGrayscale 100;
                 Preview.mkOp Preview.FnContrast 150;
                 Preview.mkOp Preview.FnBrightness 110]
    | oil_painting => [Preview.mkOp Preview.FnSaturate 180;
                       Preview.mkOp Preview.FnContrast 130]
    | cartoon => [Preview.mkOp Preview.FnSaturate 200;
                  Preview.mkOp Preview.FnContrast 150]
    | none => []
    end in
  let ops := Preview.mkOp Preview.FnBrightness b
             :: Preview.mkOp Preview.FnContrast c :: table in
  Preview.computedFilter b c e = Preview.renderOps ops
  /\ Preview.parseFilter (Preview.computedFilter b c e) = Some ops
  /\ length ops = (2 + length table)%nat
  /\ (length table <= 3)%nat.
Proof.
  intros table ops.
  assert (E : ops = Preview.specOps b c e) by (destruct e; reflexivity).
  split; [rewrite E; apply computedFilter_renderOps |].
  split; [rewrite computedFilter_renderOps, <- E; apply parseFilter_renderOps |].
  split; [reflexivity |].
  destruct e; simpl; lia.
Qed.

Example filter_sketch :
  Preview.computedFilter 120 80 sketch =
  "brightness(120%) contrast(80%) grayscale(100%) contrast(150%) brightness(110%)"%string.
Proof. reflexivity. Qed.

(* ================================================================== *)
(** * Enhancement client *)
(* ================================================================== *)

Section EnhancementClient.

Import Remote Async Gemini.

(** The client performs one remote call and settles with what the [try]
    and [catch] blocks make of its outcome. *)
Lemma run_enhanceImageWithGemini remote (b64 : option string) (mime prompt : string) :
  run remote (enhanceImageWithGemini b64 mime prompt)
  = (settle (remote (request b64 mime prompt)), [request b64 mime prompt]).
Proof. reflexivity. Qed.

Lemma find_absent {A : Type} (p : A -> bool) (xs : list A) :
  existsb p xs = false -> Js.find p xs = None.
Proof.
  unfold Js.find. induction xs as [|x xs IH]; simpl; [reflexivity |].
  intros H. apply orb_false_iff in H as [-> H]. auto.
Qed.

Lemma find_first {A : Type} (p : A -> bool) (pre post : list A) (x : A) :
  (forall y, In y pre -> p y = false) -> p x = true ->
  Js.find p (pre ++ x :: post) = Some x.
Proof.
  unfold Js.find. intros Hpre Hx.
  induction pre as [|y pre IH]; simpl; [now rewrite Hx |].
  rewrite (Hpre y) by now left. apply IH. intros z Hz. apply Hpre. now right.
Qed.

(** A response without any inline image has no image part. *)
Lemma imageResponsePart_absent (response : Response) :
  carriesImage response = false -> imageResponsePart response = None.
Proof.
  unfold carriesImage, imageResponsePart, Js.at_.
  destruct (candidates response) as [[|c cs]|]; simpl; try reflexivity.
  intros H. apply orb_false_iff in H as [H _]. unfold partsOf in H.
  destruct (content c) as [ct|]; simpl in *; [| reflexivity].
  destruct (parts ct) as [ps|]; simpl in *; [| reflexivity].
  now apply find_absent.
Qed.

(** Whatever was caught, the rejection is one of the two fixed errors. *)
Lemma settle_of_throw (o : Outcome) (e : Thrown) :
  tryBlock o = Throw e ->
  settle o = Reject (ErrorObj (if isRateLimit e then rateLimitMessage
                               else genericMessage)).
Proof.
  unfold settle, catchBlock. intros ->. now destruct (isRateLimit e).
Qed.

Lemma settle_no_image (response : Response) :
  imageResponsePart response = None ->
  settle (Fulfilled response) = Reject (ErrorObj genericMessage).
Proof.
  intros H. rewrite (settle_of_throw _ (ErrorObj noImageMessage)).
  - reflexivity.
  - unfold tryBlock. now rewrite H.
Qed.

(** A rejection carries one of the client's two errors. *)
Lemma settle_Reject_message (o : Outcome) (reason : Thrown) :
  settle o = Reject reason ->
  reason = ErrorObj rateLimitMessage \/ reason = ErrorObj genericMessage.
Proof.
  unfold settle. destruct (tryBlock o) as [v|e]; [discriminate |].
  intros E. injection E as <-. unfold catchBlock.
  destruct (isRateLimit e); auto.
Qed.

End EnhancementClient.




(** C7.  When no part of any candidate of the response carries inline image
    data, the client settles, after its single remote call, with the generic
    failure: it returns no image, and the call is not repeated. *)
Theorem C7_no_image_is_generic_failure
  (remote : Remote.Request -> Remote.Outcome)
  (b64 : option string) (mime prompt : string) (response : Remote.Response) :
  remote (Gemini.request b64 mime prompt) = Remote.Fulfilled response ->
  Gemini.carriesImage response = false ->
  Async.run remote (Gemini.enhanceImageWithGemini b64 mime prompt)
  = (Async.Reject (Remote.ErrorObj Gemini.genericMessage),
     [Gemini.request b64 mime prompt]).
Proof.
  intros Hremote Hnone.
  rewrite run_enhanceImageWithGemini, Hremote.
  now rewrite settle_no_image by now apply imageResponsePart_absent.
Qed.

Lemma C7_no_image_witness :
  Async.run (fun _ => Remote.Fulfilled Sample.textResponse)
            (Gemini.enhanceImageWithGemini (Some "iVBORw0KGgo") "image/png"
                                           Prompt.basePrompt)
  = (Async.Reject
       (Remote.ErrorObj
          "Failed to enhance the image. Please check the console for more details."),
     [Gemini.request (Some "iVBORw0KGgo") "image/png" Prompt.basePrompt]).
Proof.
  apply (C7_no_image_is_generic_failure
           (fun _ => Remote.Fulfilled Sample.textResponse)
           (Some "iVBORw0KGgo"%string) "image/png" Prompt.basePrompt
           Sample.textResponse); reflexivity.
Defined.

(** C10.  Every rejection of [enhanceImageWithGemini] carries one of two
    fixed messages, and which one depends only on whether the caught error
    is an [Error] whose message contains "429": then it is "Request limit
    exceeded. Please try again later.", otherwise (a missing image included)
    it is "Failed to enhance the image. Please check the console for more
    details.".  So an unrelated error whose message happens to contain "429"
    is reported as a rate limit. *)
Theorem C10_two_messages_chosen_by_429
  (remote : Remote.Request -> Remote.Outcome)
  (b64 : option string) (mime prompt : string) :
  let result :=
    fst (Async.run remote (Gemini.enhanceImageWithGemini b64 mime prompt)) in
  let outcome := remote (Gemini.request b64 mime prompt) in
  (* a rejection is the catch block's answer to the caught error *)
  (forall reason, result = Async.Reject reason ->
     exists caught,
       Gemini.tryBlock outcome = Async.Throw caught
       /\ reason = Remote.ErrorObj
            (match caught with
             | Remote.ErrorObj message =>
                 if Js.includes "429" message
                 then "Request limit exceeded. Please try again later."
                 else "Failed to enhance the image. Please check the console for more details."
             | Remote.NonError =>
                 "Failed to enhance the image. Please check the console for more details."
             end))
  (* what is caught: the rejection of the remote call, or the missing image *)
  /\ (forall reason, outcome = Remote.Rejected reason ->
        Gemini.tryBlock outcome = Async.Throw reason)
  /\ (forall response, outcome = Remote.Fulfilled response ->
        Gemini.imageResponsePart response = None ->
        result = Async.Reject (Remote.ErrorObj
          "Failed to enhance the image. Please check the console for more details."))
  (* an unrelated error that mentions 429 *)
  /\ Gemini.settle (Remote.Rejected Sample.unrelatedError)
     = Async.Reject (Remote.ErrorObj "Request limit exceeded. Please try again later.").
Proof.
  intros result outcome. subst result.
  rewrite run_enhanceImageWithGemini. cbn [fst]. fold outcome.
  split; [| split; [| split]].
  - intros reason H. unfold Gemini.settle in H.
    destruct (Gemini.tryBlock outcome) as [v|caught]; [discriminate H |].
    exists caught. split; [reflexivity |].
    injection H as <-. unfold Gemini.catchBlock, Gemini.isRateLimit.
    destruct caught as [message|]; [| reflexivity].
    now destruct (Js.includes "429" message).
  - intros reason ->. reflexivity.
  - intros response -> H. now apply settle_no_image.
  - reflexivity.
Qed.

Lemma C10_two_messages_witness :
  fst (Async.run (fun _ => Remote.Fulfilled Sample.textResponse)
         (Gemini.enhanceImageWithGemini None "image/png" Prompt.basePrompt))
  = Async.Reject (Remote.ErrorObj
      "Failed to enhance the image. Please check the console for more details.").
Proof.
  destruct (C10_two_messages_chosen_by_429
              (fun _ => Remote.Fulfilled Sample.textResponse)
              None "image/png" Prompt.basePrompt) as (_ & _ & H & _).
  apply (H Sample.textResponse); reflexivity.
Defined.

(* ================================================================== *)
(** * Application state controller *)
(* ================================================================== *)

Section Controller.

Import Remote Async App.

Lemma Forall_removeAt {A : Type} (P : A -> Prop) (i : nat) (xs : list A) :
  Forall P xs -> Forall P (removeAt i xs).
Proof.
  intros HF. revert i. induction HF as [|x xs Hx Hxs IH]; intros [|i]; simpl;
    auto using Forall_nil, Forall_cons.
Qed.

Lemma Forall_nth_error {A : Type} (P : A -> Prop) (i : nat) (xs : list A) (x : A) :
  Forall P xs -> nth_error xs i = Some x -> P x.
Proof.
  intros H E. apply nth_error_In in E. rewrite Forall_forall in H. auto.
Qed.

(** The guard of [handleEnhanceClick], case by case. *)
Lemma handleEnhanceClick_invalid (s : State) :
  Js.truthy (originalImage s) && Js.truthy (originalMimeType s) = false ->
  handleEnhanceClick s
  = (setAppState Error (setError (Some validationMessage) s), None).
Proof.
  unfold handleEnhanceClick. intros H.
  destruct (Js.truthy (originalImage s)), (Js.truthy (originalMimeType s));
    try discriminate H; reflexivity.
Qed.

Lemma handleEnhanceClick_valid (s : State) :
  Js.truthy (originalImage s) && Js.truthy (originalMimeType s) = true ->
  exists image mime,
    originalImage s = Some image /\ originalMimeType s = Some mime
    /\ handleEnhanceClick s
       = (setEnhancedImage None (setError None (setAppState Loading s)),
          Some (Await
                  (Gemini.request (base64Data image) mime
                     (Prompt.compilePrompt (brightness s) (contrast s)
                        (noiseReduction s) (artisticEffect s)))
                  (fun o => Done (afterEnhance (Gemini.settle o))))).
Proof.
  unfold handleEnhanceClick. intros H.
  destruct (originalImage s) as [image|] eqn:Ei; [| discriminate H].
  destruct (originalMimeType s) as [mime|] eqn:Em;
    [| now rewrite andb_false_r in H].
  apply andb_true_iff in H as [-> ->]. exists image, mime. auto.
Qed.

(** A parked continuation, resumed, applies the tail of the handler to the
    state that is current at that moment. *)
Lemma step_Settle_parked (sys : Sys) (i : nat) (o : Outcome) :
  Forall Spec.Parked (inflight sys) -> (i < length (inflight sys))%nat ->
  step (Settle i o) sys
  = mkSys (afterEnhance (Gemini.settle o) (ui sys))
          (removeAt i (inflight sys)) (sent sys) (exported sys).
Proof.
  intros HP Hi. unfold step.
  destruct (nth_error (inflight sys) i) as [k|] eqn:E.
  - rewrite (Forall_nth_error _ _ _ _ HP E o). reflexivity.
  - apply nth_error_None in E. lia.
Qed.

Lemma truthy_Some (v : string) : v <> ""%string -> Js.truthy (Some v) = true.
Proof.
  intros H. simpl. now destruct (String.eqb_spec v "").
Qed.

(** The enhance action with a source image present: the status becomes
    loading, the request is sent and the tail of the handler is parked. *)
Lemma step_EnhanceClick_valid (sys : Sys) (image mime : string) :
  originalImage (ui sys) = Some image -> image <> ""%string ->
  originalMimeType (ui sys) = Some mime -> mime <> ""%string ->
  step EnhanceClick sys
  = mkSys (setEnhancedImage None (setError None (setAppState Loading (ui sys))))
          (inflight sys ++ [fun o => Done (afterEnhance (Gemini.settle o))])
          (sent sys ++ [Gemini.request (base64Data image) mime
                          (Prompt.compilePrompt
                             (brightness (ui sys)) (contrast (ui sys))
                             (noiseReduction (ui sys))
                             (artisticEffect (ui sys)))])
          (exported sys).
Proof.
  intros Hi Hine Hm Hmne.
  assert (G : Js.truthy (originalImage (ui sys))
              && Js.truthy (originalMimeType (ui sys)) = true).
  { rewrite Hi, Hm, !truthy_Some by assumption. reflexivity. }
  destruct (handleEnhanceClick_valid _ G) as (image' & mime' & Ei & Em & E).
  rewrite Hi in Ei. rewrite Hm in Em. injection Ei as <-. injection Em as <-.
  unfold step. rewrite E. reflexivity.
Qed.

Lemma truthy_nonempty (v : string) : Js.truthy (Some v) = true -> v <> ""%string.
Proof. simpl. intros H ->. discriminate H. Qed.

(** The enhance action, by its guard. *)
Lemma step_EnhanceClick_cases (sys : Sys) :
  step EnhanceClick sys
  = withUi (fun s => setAppState Error (setError (Some validationMessage) s)) sys
  \/ exists image mime,
       originalImage (ui sys) = Some image /\ image <> ""%string
       /\ originalMimeType (ui sys) = Some mime /\ mime <> ""%string
       /\ step EnhanceClick sys
          = mkSys (setEnhancedImage None
                     (setError None (setAppState Loading (ui sys))))
                  (inflight sys ++ [fun o => Done (afterEnhance (Gemini.settle o))])
                  (sent sys ++ [Gemini.request (base64Data image) mime
                                  (Prompt.compilePrompt
                                     (brightness (ui sys)) (contrast (ui sys))
                                     (noiseReduction (ui sys))
                                     (artisticEffect (ui sys)))])
                  (exported sys).
Proof.
  destruct (Js.truthy (originalImage (ui sys))
            && Js.truthy (originalMimeType (ui sys))) eqn:G.
  - right. destruct (handleEnhanceClick_valid _ G) as (image & mime & Ei & Em & _).
    rewrite Ei, Em in G. apply andb_true_iff in G as [Gi Gm].
    apply truthy_nonempty in Gi, Gm. exists image, mime.
    repeat (split; [assumption |]).
    now apply step_EnhanceClick_valid.
  - left. unfold step. now rewrite (handleEnhanceClick_invalid _ G).
Qed.

Lemma length_removeAt_lt {A : Type} (i : nat) (xs : list A) :
  (i < length xs)%nat -> S (length (removeAt i xs)) = length xs.
Proof.
  revert i. induction xs as [|x xs IH]; intros [|i] H; simpl in *; try lia.
  rewrite IH; lia.
Qed.

Lemma removeAt_last {A : Type} (xs : list A) (x : A) :
  removeAt (length xs) (xs ++ [x]) = xs.
Proof. induction xs as [|y xs IH]; simpl; [reflexivity | now rewrite IH]. Qed.

(** Resuming the continuation that was parked last. *)
Lemma step_Settle_last (u : State) ks k snt ex (o : Outcome) (f : State -> State) :
  k o = Done f ->
  step (Settle (length ks) o) (mkSys u (ks ++ [k]) snt ex) = mkSys (f u) ks snt ex.
Proof.
  intros Hk. unfold step. cbn [inflight ui sent exported].
  rewrite nth_error_app2, Nat.sub_diag by lia. cbn [nth_error].
  rewrite Hk, removeAt_last. reflexivity.
Qed.

(** The three clauses of [Core] after a handler ran: a clause either is the
    one that held before, or holds by what the handler just stored. *)
Ltac core_clause :=
  first [ assumption
        | intros [E|E]; discriminate E
        | intros E; discriminate E
        | intros _; repeat apply conj; (reflexivity || assumption)
        | idtac ].

Ltac core_after :=
  unfold Spec.Core, defaults; cbn; (apply conj; [| apply conj]); core_clause.

Lemma Core_initial : Spec.Core initial.
Proof. core_after. Qed.

Lemma Core_afterEnhance (settled : Settled) (s : State) :
  Spec.Core s -> Spec.Core (afterEnhance settled s).
Proof.
  intros (_ & _ & H3). destruct settled; core_after.
Qed.

(** Every event that is offered keeps the invariant.  Only the clause on the
    settings needs the event to be offered: the sliders and effect buttons
    exist only while an image is shown. *)
Lemma SysInvariant_step (sys : Sys) (ev : Event) :
  Spec.SysInvariant sys -> offered (ui sys) ev = true ->
  Spec.SysInvariant (step ev sys).
Proof.
  intros [HC HP] Hoff. pose proof HC as (H1 & H2 & H3).
  unfold Spec.Core, defaults in H1, H2, H3.
  destruct ev; cbn [step withUi offered] in *.
  - (* onloadend *)
    split; [| exact HP]. core_after.
  - (* onerror *)
    split; [| exact HP]. core_after.
  - (* enhance *)
    destruct (Js.truthy (originalImage (ui sys))
              && Js.truthy (originalMimeType (ui sys))) eqn:G.
    + destruct (handleEnhanceClick_valid _ G) as (image & mime & Ei & Em & ->).
      apply andb_true_iff in G as [Gi Gm].
      split; cbn [spawn ui inflight].
      * core_after.
      * apply Forall_app. split; [exact HP |].
        constructor; [| constructor]. intros o. reflexivity.
    + rewrite (handleEnhanceClick_invalid _ G).
      split; [| exact HP]. core_after.
  - (* start over *)
    split; [| exact HP]. core_after.
  - (* reset settings *)
    split; [| exact HP]. core_after.
  - (* brightness *)
    split; [| exact HP]. apply andb_true_iff in Hoff as [Hi _].
    core_after. intros E. rewrite E in Hi. discriminate Hi.
  - (* contrast *)
    split; [| exact HP]. apply andb_true_iff in Hoff as [Hi _].
    core_after. intros E. rewrite E in Hi. discriminate Hi.
  - (* noise reduction *)
    split; [| exact HP]. apply andb_true_iff in Hoff as [Hi _].
    core_after. intros E. rewrite E in Hi. discriminate Hi.
  - (* effect *)
    split; [| exact HP].
    core_after. intros E. rewrite E in Hoff. discriminate Hoff.
  - (* download *)
    destruct (handleDownload now (ui sys)); split; assumption.
  - (* a request settles *)
    destruct (nth_error (inflight sys) i) as [k|] eqn:E; [| now split].
    rewrite (Forall_nth_error _ _ _ _ HP E o). cbn [spawn ui inflight].
    split; [now apply Core_afterEnhance | now apply Forall_removeAt].
Qed.

Lemma reachable_SysInvariant (sys : Sys) :
  reachable sys -> Spec.SysInvariant sys.
Proof.
  induction 1 as [|sys ev _ IH Hoff].
  - split; [apply Core_initial | constructor].
  - now apply SysInvariant_step.
Qed.

(** The settings the prompt is compiled from are always within the ranges
    of the sliders. *)
Lemma reachable_InRange (sys : Sys) : reachable sys -> Spec.InRange (ui sys).
Proof.
  induction 1 as [|sys ev R IH Hoff]; [unfold Spec.InRange; simpl; lia |].
  destruct (reachable_SysInvariant sys R) as [_ HP].
  unfold Spec.InRange in *.
  destruct ev; cbn [step withUi offered] in *.
  - cbn. lia.
  - cbn. lia.
  - destruct (Js.truthy (originalImage (ui sys))
              && Js.truthy (originalMimeType (ui sys))) eqn:G.
    + destruct (handleEnhanceClick_valid _ G) as (? & ? & _ & _ & ->).
      cbn. lia.
    + rewrite (handleEnhanceClick_invalid _ G). cbn. lia.
  - cbn. lia.
  - cbn. lia.
  - apply andb_true_iff in Hoff as [_ Hr]. unfold inRange in Hr. cbn. lia.
  - apply andb_true_iff in Hoff as [_ Hr]. unfold inRange in Hr. cbn. lia.
  - apply andb_true_iff in Hoff as [_ Hr]. unfold inRange in Hr. cbn. lia.
  - cbn. lia.
  - destruct (handleDownload now (ui sys)); cbn; lia.
  - destruct (nth_error (inflight sys) i) as [k|] eqn:E; [| lia].
    rewrite (Forall_nth_error _ _ _ _ HP E o). cbn [spawn ui].
    destruct (Gemini.settle o); cbn; lia.
Qed.

(** A trace of offered events from a reachable state ends in one. *)
Lemma reachable_steps (evs : list Event) (sys : Sys) :
  reachable sys -> allOffered evs sys = true -> reachable (steps evs sys).
Proof.
  revert sys. induction evs as [|ev evs IH]; intros sys Hr Ho; [exact Hr |].
  simpl in Ho. apply andb_true_iff in Ho as [Hev Hrest].
  apply (IH (step ev sys)); [now constructor | exact Hrest].
Qed.

End Controller.

(** C8.  When the enhance action runs while no source image is present, the
    controller goes straight to the error status with the local validation
    message; nothing else changes, no request is sent and none is parked. *)
Theorem C8_enhance_without_image_is_validation_error (sys : App.Sys) :
  Js.truthy (App.originalImage (App.ui sys)) = false ->
  let sys' := App.step App.EnhanceClick sys in
  App.ui sys'
  = App.setAppState Error
      (App.setError (Some "Please select an image first.") (App.ui sys))
  /\ App.appState (App.ui sys') = Error
  /\ App.error (App.ui sys') = Some "Please select an image first."%string
  /\ App.sent sys' = App.sent sys
  /\ App.inflight sys' = App.inflight sys
  /\ snd (App.handleEnhanceClick (App.ui sys)) = None.
Proof.
  intros H. cbn zeta. unfold App.step.
  rewrite handleEnhanceClick_invalid by now rewrite H.
  repeat split.
Qed.

Lemma C8_enhance_without_image_witness :
  Js.truthy (App.originalImage (App.ui App.start)) = false
  /\ App.appState (App.ui (App.step App.EnhanceClick App.start)) = Error
  /\ App.error (App.ui (App.step App.EnhanceClick App.start))
     = Some "Please select an image first."%string
  /\ App.sent (App.step App.EnhanceClick App.start) = [].
Proof.
  split; [reflexivity |].
  destruct (C8_enhance_without_image_is_validation_error App.start eq_refl)
    as (_ & Hstatus & Herror & Hsent & _).
  split; [exact Hstatus |]. split; [exact Herror | exact Hsent].
Defined.

(** C9.  When the remote call succeeds and the first candidate of the
    response has a part with inline image data, the client resolves, after
    its single call, with the data URL built from the first such part:
    [data:], the part's MIME type, [;base64,] and its payload, so the URL
    begins by declaring that MIME type.  The controller, when the request it
    sent settles this way, stores that URL as the enhanced image and sets the
    status to success. *)
Theorem C9_success_yields_declared_data_url
  (sys : App.Sys) (image mime : string)
  (response : Remote.Response)
  (first : Remote.Candidate) (others : list Remote.Candidate)
  (body : Remote.Content) (before after : list Remote.Part)
  (part : Remote.Part) (blob : Remote.Blob) :
  (* a source image is present *)
  App.originalImage (App.ui sys) = Some image -> image <> ""%string ->
  App.originalMimeType (App.ui sys) = Some mime -> mime <> ""%string ->
  (* [part] is the first part of the first candidate with inline data *)
  Remote.candidates response = Some (first :: others) ->
  Remote.content first = Some body ->
  Remote.parts body = Some (before ++ part :: after)%list ->
  (forall p, In p before -> Remote.inlineData p = None) ->
  Remote.inlineData part = Some blob ->
  let url := "data:" ++ Js.show (Remote.mimeType blob) ++ ";base64,"
                     ++ Js.show (Remote.data blob) in
  let req := Gemini.request (App.base64Data image) mime
               (Prompt.compilePrompt
                  (App.brightness (App.ui sys)) (App.contrast (App.ui sys))
                  (App.noiseReduction (App.ui sys))
                  (App.artisticEffect (App.ui sys))) in
  (* the client *)
  (forall remote, remote req = Remote.Fulfilled response ->
     Async.run remote
       (Gemini.enhanceImageWithGemini (App.base64Data image) mime
          (Remote.textPart req))
     = (Async.Resolve url, [req]))
  /\ (forall m, Remote.mimeType blob = Some m ->
        String.prefix ("data:" ++ m) url = true)
  (* the controller *)
  /\ (let sys1 := App.step App.EnhanceClick sys in
      let sys2 := App.step (App.Settle (length (App.inflight sys))
                                       (Remote.Fulfilled response)) sys1 in
      App.sent sys1 = (App.sent sys ++ [req])%list
      /\ App.appState (App.ui sys1) = Loading
      /\ App.enhancedImage (App.ui sys2) = Some url
      /\ App.appState (App.ui sys2) = Success
      /\ App.inflight sys2 = App.inflight sys
      /\ App.sent sys2 = App.sent sys1).
Proof.
  intros Hi Hine Hm Hmne Hc Hb Hp Hbefore Hpart url req.
  assert (Hfind : Gemini.imageResponsePart response = Some part).
  { unfold Gemini.imageResponsePart. rewrite Hc. cbn. rewrite Hb. cbn.
    rewrite Hp. cbn. apply find_first.
    - intros p Hin. now rewrite (Hbefore p Hin).
    - now rewrite Hpart. }
  assert (Hsettle : Gemini.settle (Remote.Fulfilled response) = Async.Resolve url).
  { unfold Gemini.settle, Gemini.tryBlock. now rewrite Hfind, Hpart. }
  split; [| split].
  - intros remote Hremote. rewrite run_enhanceImageWithGemini.
    cbn [Remote.textPart req Gemini.request]. fold req.
    now rewrite Hremote, Hsettle.
  - intros m Hmime. subst url. rewrite Hmime. cbn [Js.show].
    rewrite <- append_assoc. apply prefix_append.
  - cbn zeta.
    rewrite (step_EnhanceClick_valid sys image mime) by assumption.
    rewrite (step_Settle_last _ _ _ _ _ _ (App.afterEnhance (Async.Resolve url)))
      by now rewrite Hsettle.
    repeat split.
Qed.

Lemma C9_success_witness :
  App.enhancedImage (App.ui Sample.enhanced)
  = Some "data:image/jpeg;base64,/9j/4AAQSkZJRgABAQ"%string
  /\ App.appState (App.ui Sample.enhanced) = Success.
Proof.
  destruct (C9_success_yields_declared_data_url
              Sample.uploaded Sample.pngImage "image/png" Sample.jpegResponse
              {| Remote.content := Some {| Remote.parts := Some
                   [ {| Remote.inlineData := None;
                        Remote.text := Some "Here is the photo."%string |};
                     {| Remote.inlineData := Some Sample.jpegBlob;
                        Remote.text := None |} ] |} |}
              []
              {| Remote.parts := Some
                   [ {| Remote.inlineData := None;
                        Remote.text := Some "Here is the photo."%string |};
                     {| Remote.inlineData := Some Sample.jpegBlob;
                        Remote.text := None |} ] |}
              [ {| Remote.inlineData := None;
                   Remote.text := Some "Here is the photo."%string |} ]
              []
              {| Remote.inlineData := Some Sample.jpegBlob; Remote.text := None |}
              Sample.jpegBlob)
    as (_ & _ & _ & _ & Himage & Hstatus & _);
    try reflexivity; try discriminate.
  - intros p [<- | []]. reflexivity.
  - split; [exact Himage | exact Hstatus].
Defined.

(* ================================================================== *)
(** * Export *)
(* ================================================================== *)

Lemma extension_of_download_name (now : Z) :
  Spec.extension ("enhanced-image-" ++ Js.toString now ++ ".png") = Some "png"%string.
Proof.
  unfold Spec.extension.
  change ("enhanced-image-" ++ Js.toString now ++ ".png")%string
    with ("enhanced-image-" ++ (Js.toString now ++ String "."%char "png"))%string.
  rewrite <- append_assoc, splitOn_first.
  - reflexivity.
  - rewrite hasChar_append, toString_chars by reflexivity. reflexivity.
Qed.

(** C4, as stated, fails: the enhanced image
    [data:image/jpeg;base64,/9j/4AAQSkZJRgABAQ] downloaded at time
    1700000000000 is exported as [enhanced-image-1700000000000.png], and
    [png] is not an extension of [image/jpeg]. *)
Lemma C4_jpeg_is_exported_as_png : ~ Spec.ExportFollowsMime.
Proof.
  intros H.
  destruct (H 1700000000000 (App.ui Sample.enhanced) Sample.jpegUrl
              "image/jpeg"%string eq_refl eq_refl)
    as (link & ext & Hlink & Hname & Hext); [discriminate |].
  vm_compute in Hlink. injection Hlink as <-.
  destruct Hext as [<- | [<- | []]]; vm_compute in Hname; discriminate Hname.
Qed.

(** C4, amended.  For every enhanced image the download action exports it
    as a file named [enhanced-image-<Date.now()>.png]: the link points at the
    enhanced image and the extension is [png] whatever MIME type the image
    declares. *)
Theorem C4_export_is_named_png (now : Z) (sys : App.Sys) (image : string) :
  App.enhancedImage (App.ui sys) = Some image -> image <> ""%string ->
  let name := "enhanced-image-" ++ Js.toString now ++ ".png" in
  App.handleDownload now (App.ui sys)
  = Some {| App.href := image; App.download := name |}
  /\ Spec.extension name = Some "png"%string
  /\ App.exported (App.step (App.DownloadClick now) sys)
     = (App.exported sys ++ [ {| App.href := image; App.download := name |} ])%list
  /\ App.ui (App.step (App.DownloadClick now) sys) = App.ui sys.
Proof.
  intros He Hne name.
  assert (Hd : App.handleDownload now (App.ui sys)
               = Some {| App.href := image; App.download := name |}).
  { unfold App.handleDownload. rewrite He, truthy_Some by assumption.
    reflexivity. }
  split; [exact Hd |]. split; [apply extension_of_download_name |].
  unfold App.step. rewrite Hd. split; reflexivity.
Qed.

Lemma C4_export_witness :
  App.handleDownload 1700000000000 (App.ui Sample.enhanced)
  = Some {| App.href := "data:image/jpeg;base64,/9j/4AAQSkZJRgABAQ";
            App.download := "enhanced-image-1700000000000.png" |}.
Proof.
  destruct (C4_export_is_named_png 1700000000000 Sample.enhanced Sample.jpegUrl)
    as (H & _).
  - reflexivity.
  - discriminate.
  - exact H.
Defined.

(* ================================================================== *)
(** * The controller's invariant *)
(* ================================================================== *)

Example lateSuccess_runs :
  App.allOffered Sample.lateSuccess App.start = true
  /\ App.ui (App.steps Sample.lateSuccess App.start)
     = App.mkState None None (Some Sample.jpegUrl) Success None 100 100 0 none.
Proof. split; reflexivity. Qed.

(** C2, as stated, fails: after the events [Sample.lateSuccess], all
    offered by the interface, there is no source image, yet the status is success (not
    idle) and an enhanced image is stored. *)
Lemma C2_stated_invariant_fails :
  ~ (forall sys, App.reachable sys -> Spec.StatedInvariant (App.ui sys)).
Proof.
  intros H.
  assert (R : App.reachable (App.steps Sample.lateSuccess App.start)).
  { apply reachable_steps; [constructor | reflexivity]. }
  destruct (H _ R) as (_ & _ & Hnull).
  destruct (Hnull eq_refl) as [_ Hidle]. discriminate Hidle.
Qed.

(** The other two clauses of the stated invariant fail as well, on a second
    request sent after a reset while the first is still in flight. *)
Example enhanced_image_outlives_success :
  let evs := [ App.ReaderLoadEnd (Some Sample.pngImage) "image/png";
               App.EnhanceClick; App.StartOver;
               App.ReaderLoadEnd (Some Sample.pngImage) "image/png";
               App.EnhanceClick;
               App.Settle 0 (Remote.Fulfilled Sample.jpegResponse);
               App.Settle 0 (Remote.Rejected Sample.networkError) ] in
  App.allOffered evs App.start = true
  /\ App.enhancedImage (App.ui (App.steps evs App.start)) = Some Sample.jpegUrl
  /\ App.appState (App.ui (App.steps evs App.start)) = Error.
Proof. repeat split. Qed.

Example error_outlives_error_status :
  let evs := [ App.ReaderLoadEnd (Some Sample.pngImage) "image/png";
               App.EnhanceClick; App.StartOver;
               App.ReaderLoadEnd (Some Sample.pngImage) "image/png";
               App.EnhanceClick;
               App.Settle 0 (Remote.Rejected Sample.networkError);
               App.Settle 0 (Remote.Fulfilled Sample.jpegResponse) ] in
  App.allOffered evs App.start = true
  /\ App.error (App.ui (App.steps evs App.start)) = Some Gemini.genericMessage
  /\ App.appState (App.ui (App.steps evs App.start)) = Success.
Proof. repeat split. Qed.

(** C2, amended.  In every reachable state: the enhanced image is non-null
    only if the status is success or error; the error is non-null only if
    the status is error or success; and whenever the source image is null the
    settings are at their defaults {100,100,0,none} and the status is not
    loading. *)
Theorem C2_controller_invariant (sys : App.Sys) :
  App.reachable sys ->
  let s := App.ui sys in
  (App.enhancedImage s <> None ->
     App.appState s = Success \/ App.appState s = Error)
  /\ (App.error s <> None ->
        App.appState s = Error \/ App.appState s = Success)
  /\ (App.originalImage s = None ->
        (App.brightness s = 100 /\ App.contrast s = 100
         /\ App.noiseReduction s = 0 /\ App.artisticEffect s = none)
        /\ App.appState s <> Loading).
Proof.
  intros R s. destruct (reachable_SysInvariant sys R) as [(H1 & H2 & H3) _].
  fold s in H1, H2, H3.
  split; [| split].
  - intros He. destruct (App.appState s) eqn:E; auto;
      destruct H1 as [H1 _]; auto; contradiction.
  - intros He. destruct (App.appState s) eqn:E; auto;
      destruct H1 as [_ H1]; auto; contradiction.
  - intros Hn. split.
    + apply H3. now rewrite Hn.
    + intros E. destruct (H2 E) as [Ht _]. rewrite Hn in Ht. discriminate Ht.
Qed.

Lemma C2_controller_invariant_witness :
  App.reachable (App.steps Sample.lateSuccess App.start)
  /\ (App.originalImage (App.ui (App.steps Sample.lateSuccess App.start)) = None ->
      App.brightness (App.ui (App.steps Sample.lateSuccess App.start)) = 100).
Proof.
  assert (R : App.reachable (App.steps Sample.lateSuccess App.start)).
  { apply reachable_steps; [constructor | reflexivity]. }
  split; [exact R |].
  intros Hn.
  destruct (C2_controller_invariant _ R) as (_ & _ & H).
  destruct (H Hn) as [(Hb & _) _]. exact Hb.
Defined.

(* ================================================================== *)
(** * Single flight and late completions *)
(* ================================================================== *)

Lemma reachable_enhancing : App.reachable Sample.enhancing.
Proof.
  apply (reachable_steps
           [App.ReaderLoadEnd (Some Sample.pngImage) "image/png"; App.EnhanceClick]
           App.start); [constructor | reflexivity].
Qed.

(** C3, as stated, fails on both counts.  In the state [Sample.enhancing]
    (an image uploaded, its enhancement loading, one request sent), running
    the enhance handler again sends a second request; and after a reset from
    that state, the success of the request in flight stores its image and
    sets the status to success. *)
Lemma C3_no_guard_and_no_freshness :
  ~ Spec.SingleFlightGuard /\ ~ Spec.Freshness.
Proof.
  split; intros H.
  - specialize (H Sample.enhancing reachable_enhancing eq_refl).
    apply (f_equal (@length _)) in H. vm_compute in H. discriminate H.
  - assert (L : (0 < length (App.inflight Sample.enhancing))%nat)
      by (vm_compute; lia).
    specialize (H Sample.enhancing reachable_enhancing 0%nat
                  (Remote.Fulfilled Sample.jpegResponse) L).
    apply (f_equal App.appState) in H. vm_compute in H. discriminate H.
Qed.

Section SingleFlight.

Import Remote Async App.

Lemma undisturbed_reachable (sys : Sys) : Spec.undisturbed sys -> reachable sys.
Proof. induction 1; [constructor | now constructor]. Qed.

(** Without interruptions the status tells whether a request is in flight,
    and there is never more than one. *)
Lemma undisturbed_single_flight (sys : Sys) :
  Spec.undisturbed sys ->
  (length (inflight sys) <= 1)%nat
  /\ (inflight sys <> [] -> appState (ui sys) = Loading).
Proof.
  induction 1 as [|sys ev U [Hle Hload] Hoff Hint];
    [split; [simpl; lia | now intros C] |].
  destruct (reachable_SysInvariant sys (undisturbed_reachable sys U)) as [_ HP].
  destruct ev; cbn [step withUi ui inflight Spec.interrupts] in *.
  - rewrite (Hint eq_refl). split; [simpl; lia | now intros C].
  - rewrite (Hint eq_refl). split; [simpl; lia | now intros C].
  - (* enhance: offered only when the status is not loading *)
    apply andb_true_iff in Hoff as [_ Hst].
    assert (E : inflight sys = []).
    { destruct (inflight sys) as [|k ks] eqn:Ek; [reflexivity |].
      rewrite Hload in Hst by discriminate. discriminate Hst. }
    destruct (step_EnhanceClick_cases sys)
      as [C | (image & mime & _ & _ & _ & _ & C)];
      unfold step in C; rewrite C; cbn [withUi ui inflight]; rewrite E.
    + split; [simpl; lia | now intros N].
    + split; [simpl; lia | reflexivity].
  - rewrite (Hint eq_refl). split; [simpl; lia | now intros C].
  - now split.
  - now split.
  - now split.
  - now split.
  - now split.
  - destruct (handleDownload now (ui sys)); now split.
  - destruct (Nat.lt_ge_cases i (length (inflight sys))) as [Hi|Hi].
    + pose proof (step_Settle_parked sys i o HP Hi) as C.
      unfold step in C. rewrite C. cbn [ui inflight].
      pose proof (length_removeAt_lt i (inflight sys) Hi) as L.
      destruct (removeAt i (inflight sys)); [| simpl in L; lia].
      split; [simpl; lia | now intros N].
    + apply nth_error_None in Hi. rewrite Hi. now split.
Qed.

(** One more session: upload, enhance, start over.  It is offered in every
    reachable state and leaves one more request in flight. *)
Lemma one_more_in_flight (sys : Sys) :
  reachable sys ->
  exists sys', reachable sys'
               /\ length (inflight sys') = S (length (inflight sys))
               /\ ui sys' = initial.
Proof.
  intros R.
  set (evs := [ReaderLoadEnd (Some Sample.pngImage) "image/png";
               EnhanceClick; StartOver]).
  exists (steps evs sys). split; [| split].
  - apply reachable_steps; [exact R | reflexivity].
  - subst evs. cbn [steps fold_left].
    rewrite (step_EnhanceClick_valid _ Sample.pngImage "image/png");
      [| reflexivity | discriminate | reflexivity | discriminate].
    cbn [step withUi inflight]. rewrite length_app. simpl. lia.
  - reflexivity.
Qed.

Lemma any_number_in_flight (n : nat) :
  exists sys, reachable sys /\ length (inflight sys) = n.
Proof.
  induction n as [|n (sys & R & L)].
  - exists start. split; [constructor | reflexivity].
  - destruct (one_more_in_flight sys R) as (sys' & R' & L' & _).
    exists sys'. split; [exact R' | lia].
Qed.

End SingleFlight.

(** C3, amended.  The controller's core logic enforces neither single flight
    nor freshness; admission is controlled by the interface alone.  The
    enhance trigger is rendered only while the status is not loading, so
    while the status is loading no event the interface offers sends a
    request; and as long as Start Over and the file reader's callbacks
    arrive only while no request is in flight, at most one request is in
    flight, and the status is loading whenever one is.  The handler has no
    status guard: invoked with a source image present it sends a request
    whatever the status.  With Start Over while a request is in flight the
    interface offers a new upload and a new enhancement, so that any number
    of requests can be in flight at once.  There is no freshness check: when
    a request in flight settles after a reset, the tail of the handler is
    applied to the reset state, which stores the image and sets success (or
    stores the message and sets error), so the state always changes. *)
Theorem C3_single_flight_only_while_undisturbed :
  (* single flight through the interface, without interruptions *)
  (forall sys, Spec.undisturbed sys ->
     App.reachable sys
     /\ (length (App.inflight sys) <= 1)%nat
     /\ (App.inflight sys <> [] -> App.appState (App.ui sys) = Loading))
  (* with interruptions: no bound *)
  /\ (forall n, exists sys,
        App.reachable sys /\ length (App.inflight sys) = n)
  /\ (forall sys, App.reachable sys ->
      (* while loading, nothing that is offered sends *)
      (App.appState (App.ui sys) = Loading ->
         forall ev, App.offered (App.ui sys) ev = true ->
                    App.sent (App.step ev sys) = App.sent sys)
      (* the handler itself has no status guard *)
      /\ (forall image mime,
            App.originalImage (App.ui sys) = Some image -> image <> ""%string ->
            App.originalMimeType (App.ui sys) = Some mime -> mime <> ""%string ->
            length (App.sent (App.step App.EnhanceClick sys))
            = S (length (App.sent sys)))
      (* a late completion after a reset is applied to the reset state *)
      /\ (forall i o, (i < length (App.inflight sys))%nat ->
            let late := App.step (App.Settle i o) (App.step App.StartOver sys) in
            App.ui late
            = App.afterEnhance (Gemini.settle o) (App.handleReset (App.ui sys))
            /\ App.appState (App.ui late)
               = match Gemini.settle o with
                 | Async.Resolve _ => Success
                 | Async.Reject _ => Error
                 end
            /\ (forall url, Gemini.settle o = Async.Resolve url ->
                  App.enhancedImage (App.ui late) = Some url)
            /\ App.ui late <> App.ui (App.step App.StartOver sys))).
Proof.
  split; [| split].
  - intros sys U. split; [now apply undisturbed_reachable |].
    now apply undisturbed_single_flight.
  - exact any_number_in_flight.
  - intros sys R. destruct (reachable_SysInvariant sys R) as [_ HP].
    split; [| split].
    + intros HL ev Hoff. destruct ev; try reflexivity.
      * cbn [App.offered] in Hoff. rewrite HL in Hoff. cbn in Hoff.
        rewrite andb_false_r in Hoff. discriminate Hoff.
      * cbn [App.step]. now destruct (App.handleDownload now (App.ui sys)).
      * destruct (Nat.lt_ge_cases i (length (App.inflight sys))) as [Hi|Hi].
        -- now rewrite step_Settle_parked.
        -- unfold App.step. apply nth_error_None in Hi. now rewrite Hi.
    + intros image mime Hi Hine Hm Hmne.
      rewrite (step_EnhanceClick_valid sys image mime) by assumption.
      cbn [App.sent]. rewrite length_app. simpl. lia.
    + intros i o Hi late.
      assert (E : late = App.mkSys
                    (App.afterEnhance (Gemini.settle o)
                       (App.handleReset (App.ui sys)))
                    (App.removeAt i (App.inflight sys)) (App.sent sys)
                    (App.exported sys)).
      { subst late. now rewrite step_Settle_parked. }
      rewrite E. cbn [App.ui App.step App.withUi].
      split; [reflexivity |]. split; [| split].
      * now destruct (Gemini.settle o).
      * intros url ->. reflexivity.
      * intros C. apply (f_equal App.appState) in C.
        destruct (Gemini.settle o); discriminate C.
Qed.

Lemma C3_single_flight_witness :
  Spec.undisturbed Sample.enhancing
  /\ length (App.inflight Sample.enhancing) = 1%nat
  /\ App.appState (App.ui Sample.enhancing) = Loading.
Proof.
  assert (U : Spec.undisturbed Sample.enhancing).
  { unfold Sample.enhancing, Sample.uploaded. cbn [App.steps fold_left].
    apply Spec.undisturbed_step;
      [apply Spec.undisturbed_step;
         [apply Spec.undisturbed_start | reflexivity | reflexivity]
      | reflexivity | discriminate]. }
  split; [exact U |]. split; [reflexivity |].
  destruct C3_single_flight_only_while_undisturbed as [H _].
  destruct (H Sample.enhancing U) as (_ & _ & Hload).
  apply Hload. discriminate.
Defined.

(* ================================================================== *)
(** * More on the string primitives *)
(* ================================================================== *)

Section MoreStringFacts.

Lemma append_cancel_l (a b c : string) : (a ++ b)%string = (a ++ c)%string -> b = c.
Proof.
  induction a as [|x a IH]; simpl; [auto |]. intros E. injection E as E. auto.
Qed.

Lemma append_cancel_r (a b c : string) : (a ++ c)%string = (b ++ c)%string -> a = b.
Proof.
  revert b. induction a as [|x a IH]; intros [|y b] E; simpl in E.
  - reflexivity.
  - apply (f_equal String.length) in E. simpl in E. rewrite length_append in E. lia.
  - apply (f_equal String.length) in E. simpl in E. rewrite length_append in E. lia.
  - injection E as -> E. now rewrite (IH b E).
Qed.

Lemma toString_inj (n m : Z) : Js.toString n = Js.toString m -> n = m.
Proof.
  intros E. pose proof (toString_read n) as Rn. rewrite E, toString_read in Rn.
  now injection Rn.
Qed.

Lemma splitOn_cons (c : ascii) (s : string) :
  exists hd tl, Js.splitOn c s = hd :: tl.
Proof.
  induction s as [|x s (hd & tl & IH)]; simpl; [now eexists _, _ |].
  destruct (Ascii.eqb x c); [now eexists _, _ |]. rewrite IH. now eexists _, _.
Qed.

(** A string that has the separator splits at its first occurrence. *)
Lemma hasChar_first (c : ascii) (s : string) :
  Js.hasChar c s = true ->
  exists a b, Js.hasChar c a = false /\ s = (a ++ String c b)%string.
Proof.
  induction s as [|x s IH]; simpl; [discriminate |].
  destruct (Ascii.eqb x c) eqn:E; simpl.
  - intros _. apply Ascii.eqb_eq in E as ->. now exists ""%string, s.
  - intros H. destruct (IH H) as (a & b & Ha & ->).
    exists (String x a), b. simpl. now rewrite E, Ha.
Qed.

End MoreStringFacts.

(* ================================================================== *)
(** * Resetting and loading *)
(* ================================================================== *)

Lemma handleReset_initial (s : App.State) : App.handleReset s = App.initial.
Proof. reflexivity. Qed.

Lemma onloadend_loaded (result : option string) (fileType : string) (s : App.State) :
  App.onloadend result fileType s = Safety.loaded result fileType.
Proof. reflexivity. Qed.

(** X1.  Start Over puts every state cell back to its initial value, whatever
    happened before, but it cancels nothing: the requests in flight stay in
    flight, and the log of sent requests and exported files is kept. *)
Theorem start_over_restores_initial_state_only (sys : App.Sys) :
  App.ui (App.step App.StartOver sys) = App.ui App.start
  /\ App.inflight (App.step App.StartOver sys) = App.inflight sys
  /\ App.sent (App.step App.StartOver sys) = App.sent sys
  /\ App.exported (App.step App.StartOver sys) = App.exported sys
  /\ View.render (App.ui (App.step App.StartOver sys))
     = View.mkView true false None None None false false false.
Proof. repeat split. Qed.

(** X2.  A finished file read overwrites all nine state cells: the state after it
    does not depend on the state before it.  In particular an error reported
    by [onerror] for the same read is erased, and a read without a result
    leaves no image but still records the file's type. *)
Theorem file_load_replaces_whole_state
  (result : option string) (fileType : string) (s s' : App.State) :
  App.onloadend result fileType s = App.onloadend result fileType s'
  /\ App.onloadend result fileType s
     = App.setOriginalMimeType (Some fileType)
         (App.setOriginalImage result App.initial)
  /\ App.error (App.onloadend result fileType (App.onerror s)) = None
  /\ App.appState (App.onloadend result fileType (App.onerror s)) = Idle
  /\ App.originalMimeType (App.onloadend None fileType s) = Some fileType.
Proof. repeat split. Qed.

(* ================================================================== *)
(** * Invariants of the component state *)
(* ================================================================== *)

Section UiInvariant.

Import Remote Async App.

(** A property of the state that every handler keeps holds in every
    reachable state. *)
Variable P : State -> Prop.

Hypothesis P_initial : P initial.
Hypothesis P_loaded : forall result fileType, P (Safety.loaded result fileType).
Hypothesis P_onerror : forall s, P s -> P (onerror s).
Hypothesis P_invalid :
  forall s, P s -> P (setAppState Error (setError (Some validationMessage) s)).
Hypothesis P_loading :
  forall s, P s ->
    P (setEnhancedImage None (setError None (setAppState Loading s))).
Hypothesis P_brightness : forall v s, P s -> P (setBrightness v s).
Hypothesis P_contrast : forall v s, P s -> P (setContrast v s).
Hypothesis P_noise : forall v s, P s -> P (setNoiseReduction v s).
Hypothesis P_effect : forall e s, P s -> P (setArtisticEffect e s).
Hypothesis P_settled :
  forall o s, P s -> P (afterEnhance (Gemini.settle o) s).

Lemma ui_invariant_step (sys : Sys) (ev : Event) :
  Forall Spec.Parked (inflight sys) -> P (ui sys) -> P (ui (step ev sys)).
Proof.
  intros HP H. destruct ev; cbn [step withUi ui].
  - rewrite onloadend_loaded. apply P_loaded.
  - now apply P_onerror.
  - destruct (Js.truthy (originalImage (ui sys))
              && Js.truthy (originalMimeType (ui sys))) eqn:G.
    + destruct (handleEnhanceClick_valid _ G) as (? & ? & _ & _ & ->).
      cbn [spawn withUi ui]. now apply P_loading.
    + rewrite (handleEnhanceClick_invalid _ G). cbn [withUi ui].
      now apply P_invalid.
  - apply P_initial.
  - unfold handleResetSettings.
    now apply P_effect, P_noise, P_contrast, P_brightness.
  - now apply P_brightness.
  - now apply P_contrast.
  - now apply P_noise.
  - now apply P_effect.
  - now destruct (handleDownload now (ui sys)).
  - destruct (nth_error (inflight sys) i) as [k|] eqn:E; [| exact H].
    rewrite (Forall_nth_error _ _ _ _ HP E o). cbn [spawn ui].
    now apply P_settled.
Qed.

Lemma reachable_ui_invariant (sys : Sys) : reachable sys -> P (ui sys).
Proof.
  induction 1 as [|sys ev R IH _]; [exact P_initial |].
  apply ui_invariant_step; [| exact IH].
  now destruct (reachable_SysInvariant sys R).
Qed.

End UiInvariant.

Section ComponentState.

Import Remote Async App.

(** What the client resolves with is a data URL. *)
Lemma settle_Resolve_isDataUrl (o : Outcome) (url : string) :
  Gemini.settle o = Resolve url -> Safety.isDataUrl url.
Proof.
  unfold Gemini.settle, Gemini.tryBlock.
  destruct o as [response|reason]; [| discriminate].
  destruct (Gemini.imageResponsePart response) as [part|]; [| discriminate].
  destruct (inlineData part) as [blob|]; [| discriminate].
  intros E. injection E as <-. now eexists _, _.
Qed.

Lemma reachable_ErrorKnown (sys : Sys) : reachable sys -> Safety.ErrorKnown (ui sys).
Proof.
  apply reachable_ui_invariant; unfold Safety.ErrorKnown; cbn;
    try discriminate; auto.
  - intros s _ m E. injection E as <-. simpl. auto.
  - intros s _ m E. injection E as <-. simpl. auto.
  - intros o s H m. destruct (Gemini.settle o) as [v|reason] eqn:S; cbn; [auto |].
    intros E. injection E as <-.
    destruct (settle_Reject_message _ _ S) as [-> | ->]; simpl; auto.
Qed.

Lemma reachable_EnhancedIsDataUrl (sys : Sys) :
  reachable sys -> Safety.EnhancedIsDataUrl (ui sys).
Proof.
  apply reachable_ui_invariant; unfold Safety.EnhancedIsDataUrl; cbn;
    try discriminate; auto.
  intros o s H url. destruct (Gemini.settle o) as [v|reason] eqn:S; cbn; [| auto].
  intros E. injection E as <-. now apply (settle_Resolve_isDataUrl o).
Qed.

Lemma reachable_MimePaired (sys : Sys) : reachable sys -> Safety.MimePaired (ui sys).
Proof.
  apply reachable_ui_invariant; unfold Safety.MimePaired; cbn;
    try discriminate; auto.
  intros o s H. now destruct (Gemini.settle o).
Qed.

End ComponentState.

(** X3.  In every reachable state the settings lie within the ranges of their
    sliders: brightness and contrast in [50,150], noise reduction in
    [0,100]. *)
Theorem settings_stay_in_slider_ranges (sys : App.Sys) :
  App.reachable sys ->
  50 <= App.brightness (App.ui sys) <= 150
  /\ 50 <= App.contrast (App.ui sys) <= 150
  /\ 0 <= App.noiseReduction (App.ui sys) <= 100.
Proof. intros R. exact (reachable_InRange sys R). Qed.

Lemma settings_stay_in_slider_ranges_witness :
  App.reachable
    (App.steps [App.ReaderLoadEnd (Some Sample.pngImage) "image/png";
                App.SlideBrightness 150; App.SlideNoiseReduction 100]
               App.start)
  /\ App.brightness
       (App.ui (App.steps [App.ReaderLoadEnd (Some Sample.pngImage) "image/png";
                           App.SlideBrightness 150; App.SlideNoiseReduction 100]
                          App.start)) <= 150.
Proof.
  assert (R : App.reachable
    (App.steps [App.ReaderLoadEnd (Some Sample.pngImage) "image/png";
                App.SlideBrightness 150; App.SlideNoiseReduction 100]
               App.start))
    by (apply reachable_steps; [constructor | reflexivity]).
  split; [exact R |].
  destruct (settings_stay_in_slider_ranges _ R) as ((_ & H) & _). exact H.
Defined.

(** X4.  A message on display is always one of four: the file-read error, the
    validation message, or one of the client's two messages.  The fallback
    for a rejection that is not an [Error] is never displayed, and neither is
    the client's internal "No image found" message. *)
Theorem displayed_error_is_one_of_four (sys : App.Sys) (message : string) :
  App.reachable sys -> App.error (App.ui sys) = Some message ->
  (message = "Error reading the file."%string
   \/ message = "Please select an image first."%string
   \/ message = "Request limit exceeded. Please try again later."%string
   \/ message = "Failed to enhance the image. Please check the console for more details."%string)
  /\ message <> App.unexpectedMessage
  /\ message <> Gemini.noImageMessage.
Proof.
  intros R E. pose proof (reachable_ErrorKnown sys R message E) as H.
  simpl in H. destruct H as [<- | [<- | [<- | [<- | []]]]];
    (split; [auto 6 | split; discriminate]).
Qed.

Lemma displayed_error_witness :
  App.reachable (App.steps [App.ReaderError] App.start)
  /\ App.error (App.ui (App.steps [App.ReaderError] App.start))
     <> Some App.unexpectedMessage.
Proof.
  assert (R : App.reachable (App.steps [App.ReaderError] App.start))
    by (apply reachable_steps; [constructor | reflexivity]).
  split; [exact R |]. intros E.
  destruct (displayed_error_is_one_of_four _ _ R E) as (_ & H & _). now apply H.
Defined.

(** X5.  An enhanced image in the state is always a data URL
    [data:<mime>;base64,<payload>], hence never the empty string. *)
Theorem enhanced_image_is_a_data_url (sys : App.Sys) (url : string) :
  App.reachable sys -> App.enhancedImage (App.ui sys) = Some url ->
  (exists mime payload, url = "data:" ++ mime ++ ";base64," ++ payload)
  /\ Js.truthy (Some url) = true
  /\ View.enhancedPanel (View.render (App.ui sys))
     = if Js.truthy (App.originalImage (App.ui sys)) then Some url else None.
Proof.
  intros R E. destruct (reachable_EnhancedIsDataUrl sys R url E)
    as (mime & payload & ->).
  split; [now exists mime, payload |]. split; [reflexivity |].
  unfold View.render. rewrite E.
  now destruct (Js.truthy (App.originalImage (App.ui sys))).
Qed.

Lemma enhanced_image_witness :
  App.reachable Sample.enhanced
  /\ exists mime payload,
       Sample.jpegUrl = ("data:" ++ mime ++ ";base64," ++ payload)%string.
Proof.
  assert (R : App.reachable Sample.enhanced).
  { unfold Sample.enhanced.
    apply reachable_steps; [exact reachable_enhancing | reflexivity]. }
  split; [exact R |].
  destruct (enhanced_image_is_a_data_url Sample.enhanced Sample.jpegUrl R eq_refl)
    as [H _]. exact H.
Defined.

(** X6.  When the interface offers the enhance button, its handler's guard can
    fail for one reason only: the uploaded file had an empty type. *)
Theorem offered_enhance_fails_only_on_empty_type (sys : App.Sys) :
  App.reachable sys -> App.offered (App.ui sys) App.EnhanceClick = true ->
  (snd (App.handleEnhanceClick (App.ui sys)) = None
   <-> App.originalMimeType (App.ui sys) = Some ""%string).
Proof.
  intros R Hoff. cbn [App.offered] in Hoff.
  apply andb_true_iff in Hoff as [Hi _].
  pose proof (reachable_MimePaired sys R) as HM. unfold Safety.MimePaired in HM.
  destruct (App.originalImage (App.ui sys)) as [image|] eqn:Ei; [| discriminate Hi].
  destruct (App.originalMimeType (App.ui sys)) as [mime|] eqn:Em;
    [| now elim HM].
  destruct (String.eqb_spec mime "") as [->|ne].
  - split; [reflexivity |]. intros _.
    rewrite handleEnhanceClick_invalid; [reflexivity |].
    rewrite Ei, Em, Hi. reflexivity.
  - split.
    + intros H.
      destruct (handleEnhanceClick_valid (App.ui sys)) as (? & ? & _ & _ & E).
      { rewrite Ei, Em, Hi. now rewrite truthy_Some. }
      rewrite E in H. discriminate H.
    + intros E. injection E as ->. now elim ne.
Qed.

Lemma offered_enhance_witness :
  App.reachable (App.steps [App.ReaderLoadEnd (Some Sample.pngImage) ""] App.start)
  /\ snd (App.handleEnhanceClick
            (App.ui (App.steps [App.ReaderLoadEnd (Some Sample.pngImage) ""]
                               App.start))) = None.
Proof.
  assert (R : App.reachable
                (App.steps [App.ReaderLoadEnd (Some Sample.pngImage) ""] App.start))
    by (apply reachable_steps; [constructor | reflexivity]).
  split; [exact R |].
  apply (offered_enhance_fails_only_on_empty_type _ R); reflexivity.
Defined.

(* ================================================================== *)
(** * Requests: who sends them, what they carry, how they end *)
(* ================================================================== *)

Section Requests.

Import Remote Async App.

Lemma reachable_enhanced : reachable Sample.enhanced.
Proof.
  unfold Sample.enhanced.
  apply reachable_steps; [exact reachable_enhancing | reflexivity].
Qed.

Lemma Event_is_EnhanceClick (ev : Event) : ev = EnhanceClick \/ ev <> EnhanceClick.
Proof. destruct ev; auto; right; discriminate. Qed.

(** Every event but the enhance action leaves the log of sent requests
    alone. *)
Lemma sent_step_other (sys : Sys) (ev : Event) :
  Forall Spec.Parked (inflight sys) -> ev <> EnhanceClick ->
  sent (step ev sys) = sent sys.
Proof.
  intros HP Hev. destruct ev; try reflexivity.
  - now elim Hev.
  - cbn [step]. now destruct (handleDownload now (ui sys)).
  - destruct (Nat.lt_ge_cases i (length (inflight sys))) as [Hi|Hi].
    + now rewrite step_Settle_parked.
    + unfold step. apply nth_error_None in Hi. now rewrite Hi.
Qed.

Lemma reachable_sent_WellFormed (sys : Sys) :
  reachable sys -> Forall Safety.WellFormed (sent sys).
Proof.
  induction 1 as [|sys ev R IH _]; [constructor |].
  destruct (reachable_SysInvariant sys R) as [_ HP].
  destruct (Event_is_EnhanceClick ev) as [-> | Hev];
    [| now rewrite sent_step_other].
  destruct (step_EnhanceClick_cases sys)
    as [-> | (image & mime & _ & _ & _ & Hm & ->)]; [exact IH |].
  cbn [sent]. apply Forall_app. split; [exact IH |].
  constructor; [| constructor].
  repeat split.
  - exists mime. split; [reflexivity | exact Hm].
  - destruct (reachable_InRange sys R) as (Hb & Hc & Hn).
    exists (brightness (ui sys)), (contrast (ui sys)),
           (noiseReduction (ui sys)), (artisticEffect (ui sys)).
    repeat (split; [assumption |]). reflexivity.
Qed.

Lemma reachable_loading_inflight (sys : Sys) :
  reachable sys -> appState (ui sys) = Loading -> inflight sys <> [].
Proof.
  induction 1 as [|sys ev R IH _]; [discriminate |].
  destruct (reachable_SysInvariant sys R) as [_ HP].
  destruct ev; cbn [step withUi ui inflight]; try discriminate; try exact IH.
  - destruct (step_EnhanceClick_cases sys) as [E | (? & ? & _ & _ & _ & _ & E)];
      unfold step in E; rewrite E; cbn; [discriminate |].
    intros _ C. now apply app_eq_nil in C as [_ C].
  - now destruct (handleDownload now (ui sys)).
  - destruct (nth_error (inflight sys) i) as [k|] eqn:E; [| exact IH].
    rewrite (Forall_nth_error _ _ _ _ HP E o). cbn [spawn ui].
    now destruct (Gemini.settle o).
Qed.

End Requests.

(** X7.  Every request the controller has sent names the model
    [gemini-2.5-flash-image], asks for the image modality only, carries a
    non-empty MIME type, and carries a prompt compiled from settings within
    the slider ranges. *)
Theorem sent_requests_are_well_formed (sys : App.Sys) (req : Remote.Request) :
  App.reachable sys -> In req (App.sent sys) ->
  Remote.model req = "gemini-2.5-flash-image"%string
  /\ Remote.responseModalities req = ["IMAGE"%string]
  /\ (exists fileType, Remote.mimeType (Remote.imagePart req) = Some fileType
                       /\ fileType <> ""%string)
  /\ (exists b c n e,
        50 <= b <= 150 /\ 50 <= c <= 150 /\ 0 <= n <= 100
        /\ Remote.textPart req = Prompt.compilePrompt b c n e)
  /\ String.prefix Prompt.basePrompt (Remote.textPart req) = true.
Proof.
  intros R Hin. pose proof (reachable_sent_WellFormed sys R) as H.
  rewrite Forall_forall in H. destruct (H req Hin) as (Hm & Hr & Ht & Hp).
  repeat (split; [assumption |]).
  destruct Hp as (b & c & n & e & _ & _ & _ & ->).
  rewrite compilePrompt_specPrompt. apply prefix_append.
Qed.

Lemma sent_requests_witness :
  App.reachable Sample.enhancing
  /\ In (Gemini.request (Some "iVBORw0KGgoAAAANSUhEUg") "image/png" Prompt.basePrompt)
        (App.sent Sample.enhancing)
  /\ Remote.model
       (Gemini.request (Some "iVBORw0KGgoAAAANSUhEUg") "image/png" Prompt.basePrompt)
     = "gemini-2.5-flash-image"%string.
Proof.
  assert (Hin : In (Gemini.request (Some "iVBORw0KGgoAAAANSUhEUg"%string)
                      "image/png" Prompt.basePrompt)
                   (App.sent Sample.enhancing)) by (left; reflexivity).
  split; [exact reachable_enhancing |]. split; [exact Hin |].
  destruct (sent_requests_are_well_formed _ _ reachable_enhancing Hin) as [H _].
  exact H.
Defined.

(** X8.  Requests are sent by the enhance action and by nothing else: every
    other event (file callbacks, resets, sliders, download, a request
    settling) leaves the log of sent requests as it is, so nothing is ever
    retried; the enhance action sends at most one. *)
Theorem only_the_enhance_action_sends (sys : App.Sys) :
  App.reachable sys ->
  (forall ev, ev <> App.EnhanceClick ->
     App.sent (App.step ev sys) = App.sent sys)
  /\ (exists new, App.sent (App.step App.EnhanceClick sys)
                  = (App.sent sys ++ new)%list
                  /\ (length new <= 1)%nat).
Proof.
  intros R. destruct (reachable_SysInvariant sys R) as [_ HP]. split.
  - intros ev Hev. now apply sent_step_other.
  - destruct (step_EnhanceClick_cases sys)
      as [-> | (image & mime & _ & _ & _ & _ & ->)].
    + exists []. cbn [App.withUi App.sent length].
      split; [now rewrite app_nil_r | lia].
    + eexists [_]. cbn [App.sent length]. split; [reflexivity | lia].
Qed.

Lemma only_the_enhance_action_witness :
  App.reachable Sample.enhancing
  /\ App.sent (App.step (App.Settle 0 (Remote.Rejected Sample.networkError))
                        Sample.enhancing)
     = App.sent Sample.enhancing.
Proof.
  split; [exact reachable_enhancing |].
  destruct (only_the_enhance_action_sends _ reachable_enhancing) as [H _].
  apply H. discriminate.
Defined.

(** X9.  When a request in flight settles it leaves the list of requests in
    flight, nothing is sent again, and the status becomes success or error
    according to the client's result; the source image, its type and the
    settings are not touched.  A failure keeps an enhanced image that was
    there, a success keeps an error message that was there. *)
Theorem settling_ends_one_request (sys : App.Sys) (i : nat) (o : Remote.Outcome) :
  App.reachable sys -> (i < length (App.inflight sys))%nat ->
  let sys' := App.step (App.Settle i o) sys in
  S (length (App.inflight sys')) = length (App.inflight sys)
  /\ App.sent sys' = App.sent sys
  /\ App.appState (App.ui sys')
     = match Gemini.settle o with
       | Async.Resolve _ => Success
       | Async.Reject _ => Error
       end
  /\ App.originalImage (App.ui sys') = App.originalImage (App.ui sys)
  /\ App.originalMimeType (App.ui sys') = App.originalMimeType (App.ui sys)
  /\ (App.brightness (App.ui sys'), App.contrast (App.ui sys'),
      App.noiseReduction (App.ui sys'), App.artisticEffect (App.ui sys'))
     = (App.brightness (App.ui sys), App.contrast (App.ui sys),
        App.noiseReduction (App.ui sys), App.artisticEffect (App.ui sys))
  /\ (forall reason, Gemini.settle o = Async.Reject reason ->
        App.enhancedImage (App.ui sys') = App.enhancedImage (App.ui sys))
  /\ (forall url, Gemini.settle o = Async.Resolve url ->
        App.error (App.ui sys') = App.error (App.ui sys)).
Proof.
  intros R Hi sys'. destruct (reachable_SysInvariant sys R) as [_ HP].
  subst sys'. rewrite step_Settle_parked by assumption.
  cbn [App.inflight App.sent App.ui].
  split; [now apply length_removeAt_lt |]. split; [reflexivity |].
  destruct (Gemini.settle o); repeat split; intros ? E; discriminate E.
Qed.

Lemma settling_witness :
  App.reachable Sample.enhancing
  /\ App.inflight (App.step (App.Settle 0 (Remote.Rejected Sample.quotaError))
                            Sample.enhancing) = [].
Proof.
  split; [exact reachable_enhancing |].
  destruct (settling_ends_one_request Sample.enhancing 0
              (Remote.Rejected Sample.quotaError) reachable_enhancing)
    as [H _]; [vm_compute; lia |].
  destruct (App.inflight _); [reflexivity | discriminate H].
Defined.

(** X10.  While the status is loading a request is in flight; with an image on
    screen the spinner is shown, and then there is no error text, the
    enhanced panel shows its placeholder, and neither the enhance nor the
    download button is rendered. *)
Theorem loading_screen (sys : App.Sys) :
  App.reachable sys -> App.appState (App.ui sys) = Loading ->
  App.inflight sys <> []
  /\ View.spinner (View.render (App.ui sys)) = true
  /\ View.errorText (View.render (App.ui sys)) = None
  /\ View.enhancedPanel (View.render (App.ui sys)) = None
  /\ View.enhanceButton (View.render (App.ui sys)) = false
  /\ View.downloadButton (View.render (App.ui sys)) = false.
Proof.
  intros R HL. split; [now apply reachable_loading_inflight |].
  destruct (reachable_SysInvariant sys R) as [(H1 & H2 & _) _].
  destruct (H1 (or_intror HL)) as [He Herr]. destruct (H2 HL) as [Hi _].
  unfold View.render. rewrite Hi, HL, He, Herr. repeat split.
Qed.

Lemma loading_screen_witness :
  App.reachable Sample.enhancing
  /\ View.spinner (View.render (App.ui Sample.enhancing)) = true.
Proof.
  split; [exact reachable_enhancing |].
  destruct (loading_screen _ reachable_enhancing eq_refl) as (_ & H & _).
  exact H.
Defined.

(* ================================================================== *)
(** * Download *)
(* ================================================================== *)

(** X11.  The download handler never changes the component state, the requests in
    flight or the sent log.  Without an enhanced image (null or empty) it
    does nothing at all; whenever the interface offers the download button,
    the click exports exactly one file, whose link is the enhanced image on
    display. *)
Theorem download_exports_only_when_there_is_an_image (sys : App.Sys) (now : Z) :
  let sys' := App.step (App.DownloadClick now) sys in
  (App.ui sys' = App.ui sys /\ App.inflight sys' = App.inflight sys
   /\ App.sent sys' = App.sent sys)
  /\ (Js.truthy (App.enhancedImage (App.ui sys)) = false -> sys' = sys)
  /\ (App.offered (App.ui sys) (App.DownloadClick now) = true ->
      exists url,
        App.enhancedImage (App.ui sys) = Some url
        /\ View.enhancedPanel (View.render (App.ui sys)) = Some url
        /\ App.exported sys'
           = (App.exported sys
                ++ [ {| App.href := url;
                        App.download :=
                          "enhanced-image-" ++ Js.toString now ++ ".png" |} ])%list).
Proof.
  cbn zeta. split; [| split].
  - unfold App.step. now destruct (App.handleDownload now (App.ui sys)).
  - intros H. unfold App.step, App.handleDownload. now rewrite H.
  - intros Hoff. cbn [App.offered] in Hoff.
    apply andb_true_iff in Hoff as [Hoff He].
    apply andb_true_iff in Hoff as [Hi _].
    destruct (App.enhancedImage (App.ui sys)) as [url|] eqn:E; [| discriminate He].
    exists url. split; [reflexivity |]. split.
    + unfold View.render. now rewrite Hi, E, He.
    + unfold App.step, App.handleDownload. now rewrite E, He.
Qed.

Lemma download_witness :
  App.offered (App.ui Sample.enhanced) (App.DownloadClick 1700000000000) = true
  /\ App.exported (App.step (App.DownloadClick 1700000000000) Sample.enhanced)
     = [ {| App.href := Sample.jpegUrl;
            App.download := "enhanced-image-1700000000000.png" |} ].
Proof.
  split; [reflexivity |].
  destruct (download_exports_only_when_there_is_an_image
              Sample.enhanced 1700000000000) as (_ & _ & H).
  destruct (H eq_refl) as (url & E & _ & ->).
  vm_compute in E. injection E as <-. reflexivity.
Defined.

(** X12.  Downloads made at different times get different file names. *)
Theorem download_names_differ_with_time
  (s s' : App.State) (now now' : Z) (link link' : App.Link) :
  App.handleDownload now s = Some link ->
  App.handleDownload now' s' = Some link' ->
  App.download link = App.download link' -> now = now'.
Proof.
  unfold App.handleDownload. intros H H' E.
  destruct (Js.truthy (App.enhancedImage s)); [| discriminate H].
  destruct (Js.truthy (App.enhancedImage s')); [| discriminate H'].
  destruct (App.enhancedImage s); [| discriminate H].
  destruct (App.enhancedImage s'); [| discriminate H'].
  cbn [negb] in H, H'. injection H as <-. injection H' as <-.
  cbn [App.download] in E.
  apply (append_cancel_l "enhanced-image-") in E.
  apply append_cancel_r in E. now apply toString_inj.
Qed.

Lemma download_names_witness :
  App.handleDownload 1700000000000 (App.ui Sample.enhanced)
  = Some {| App.href := Sample.jpegUrl;
            App.download := "enhanced-image-1700000000000.png" |}
  /\ 1700000000000 = 1700000000000.
Proof.
  split; [reflexivity |].
  apply (download_names_differ_with_time
           (App.ui Sample.enhanced) (App.ui Sample.enhanced)
           1700000000000 1700000000000
           {| App.href := Sample.jpegUrl;
              App.download := "enhanced-image-1700000000000.png" |}
           {| App.href := Sample.jpegUrl;
              App.download := "enhanced-image-1700000000000.png" |});
    reflexivity.
Defined.

(* ================================================================== *)
(** * The payload sent to the model *)
(* ================================================================== *)

Lemma base64Data_fields :
  (forall image, App.base64Data image = None
                 <-> Js.hasChar ","%char image = false)
  /\ (forall head payload,
        Js.hasChar ","%char head = false ->
        Js.hasChar ","%char payload = false ->
        App.base64Data (head ++ "," ++ payload) = Some payload
        /\ forall tail,
             App.base64Data (head ++ "," ++ payload ++ "," ++ tail)
             = Some payload)
  /\ (forall mime payload,
        Js.hasChar ","%char mime = false ->
        Js.hasChar ","%char payload = false ->
        App.base64Data ("data:" ++ mime ++ ";base64," ++ payload)
        = Some payload).
Proof.
  assert (Field : forall head payload,
            Js.hasChar ","%char head = false ->
            Js.hasChar ","%char payload = false ->
            App.base64Data (head ++ "," ++ payload) = Some payload
            /\ forall tail,
                 App.base64Data (head ++ "," ++ payload ++ "," ++ tail)
                 = Some payload).
  { intros head payload Hh Hp. unfold App.base64Data, Js.at_. split.
    - change ("," ++ payload)%string with (String ","%char payload).
      now rewrite splitOn_first, splitOn_absent.
    - intros tail.
      change ("," ++ payload ++ "," ++ tail)%string
        with (String ","%char (payload ++ String ","%char tail)).
      now rewrite !splitOn_first. }
  split; [| split; [exact Field |]].
  - intros image. unfold App.base64Data, Js.at_. split.
    + intros H. destruct (Js.hasChar ","%char image) eqn:C; [| reflexivity].
      destruct (hasChar_first _ _ C) as (a & b & Ha & ->).
      rewrite splitOn_first in H by assumption.
      destruct (splitOn_cons ","%char b) as (hd & tl & E).
      rewrite E in H. discriminate H.
    + intros H. now rewrite splitOn_absent.
  - intros mime payload Hm Hp.
    change ("data:" ++ mime ++ ";base64," ++ payload)%string
      with ("data:" ++ mime ++ ";base64" ++ "," ++ payload)%string.
    rewrite <- (append_assoc mime), <- (append_assoc "data:").
    apply Field; [| exact Hp].
    now rewrite !hasChar_append, Hm.
Qed.


(** X13.  [originalImage.split(',')[1]]: the payload is [undefined] exactly when
    the image string has no comma; otherwise it is what stands between the
    first comma and the second (or the end).  For a data URL
    [data:<mime>;base64,<payload>] without further commas it is the
    payload. *)
Theorem base64Data_is_the_field_after_the_first_comma :
  (forall image, App.base64Data image = None
                 <-> Js.hasChar ","%char image = false)
  /\ (forall head payload,
        Js.hasChar ","%char head = false ->
        Js.hasChar ","%char payload = false ->
        App.base64Data (head ++ "," ++ payload) = Some payload
        /\ forall tail,
             App.base64Data (head ++ "," ++ payload ++ "," ++ tail)
             = Some payload)
  /\ (forall mime payload,
        Js.hasChar ","%char mime = false ->
        Js.hasChar ","%char payload = false ->
        App.base64Data ("data:" ++ mime ++ ";base64," ++ payload)
        = Some payload).
Proof. exact base64Data_fields. Qed.

Lemma base64Data_witness :
  App.base64Data Sample.pngImage = Some "iVBORw0KGgoAAAANSUhEUg"%string.
Proof.
  destruct base64Data_is_the_field_after_the_first_comma as (_ & _ & H).
  apply (H "image/png"%string "iVBORw0KGgoAAAANSUhEUg"%string); reflexivity.
Defined.

(** X14.  Uploading a file read as [data:<mime>;base64,<payload>] and pressing
    enhance, in whatever state the upload arrives, sends exactly one request:
    the payload of the data URL, the type of the file (not the type the URL
    declares), and, the upload having reset the settings, the bare base
    prompt. *)
Theorem upload_then_enhance_sends_payload_and_base_prompt
  (sys : App.Sys) (mime payload fileType : string) :
  Js.hasChar ","%char mime = false -> Js.hasChar ","%char payload = false ->
  fileType <> ""%string ->
  let image := "data:" ++ mime ++ ";base64," ++ payload in
  let sys' := App.steps [App.ReaderLoadEnd (Some image) fileType;
                         App.EnhanceClick] sys in
  App.sent sys'
  = (App.sent sys
       ++ [ {| Remote.model := "gemini-2.5-flash-image";
               Remote.imagePart := {| Remote.data := Some payload;
                                      Remote.mimeType := Some fileType |};
               Remote.textPart := Prompt.basePrompt;
               Remote.responseModalities := ["IMAGE"%string] |} ])%list
  /\ App.ui sys'
     = App.mkState (Some image) (Some fileType) None Loading None 100 100 0 none
  /\ length (App.inflight sys') = S (length (App.inflight sys)).
Proof.
  intros Hm Hp Ht image sys'. subst sys'. cbn [App.steps fold_left].
  rewrite (step_EnhanceClick_valid _ image fileType);
    [| reflexivity | discriminate | reflexivity | exact Ht].
  cbn [App.sent App.ui App.inflight App.step App.withUi].
  destruct base64Data_fields as (_ & _ & H).
  subst image. rewrite (H mime payload Hm Hp).
  split; [reflexivity |]. split; [reflexivity |].
  rewrite length_app. simpl. lia.
Qed.

Lemma upload_then_enhance_witness :
  App.sent (App.steps [App.ReaderLoadEnd (Some Sample.pngImage) "image/png";
                       App.EnhanceClick] App.start)
  = [ Gemini.request (Some "iVBORw0KGgoAAAANSUhEUg") "image/png"
                     Prompt.basePrompt ].
Proof.
  destruct (upload_then_enhance_sends_payload_and_base_prompt
              App.start "image/png" "iVBORw0KGgoAAAANSUhEUg" "image/png")
    as [H _]; [reflexivity | reflexivity | discriminate |].
  exact H.
Defined.

(** X15.  After Reset Settings, the next enhancement asks for the bare base prompt,
    whatever the sliders and the effect were before. *)
Theorem reset_settings_then_enhance_sends_base_prompt
  (sys : App.Sys) (image mime : string) :
  App.originalImage (App.ui sys) = Some image -> image <> ""%string ->
  App.originalMimeType (App.ui sys) = Some mime -> mime <> ""%string ->
  App.sent (App.steps [App.ResetSettings; App.EnhanceClick] sys)
  = (App.sent sys
       ++ [Gemini.request (App.base64Data image) mime Prompt.basePrompt])%list.
Proof.
  intros Hi Hine Hm Hmne. cbn [App.steps fold_left].
  now rewrite (step_EnhanceClick_valid _ image mime).
Qed.

Lemma reset_settings_then_enhance_witness :
  App.sent (App.steps [App.ResetSettings; App.EnhanceClick]
              (App.mkSys
                 (App.mkState (Some Sample.pngImage) (Some "image/png"%string)
                              None Idle None 120 80 30 sepia)
                 [] [] []))
  = [Gemini.request (App.base64Data Sample.pngImage) "image/png"
                    Prompt.basePrompt].
Proof.
  apply (reset_settings_then_enhance_sends_base_prompt
           (App.mkSys
              (App.mkState (Some Sample.pngImage) (Some "image/png"%string)
                           None Idle None 120 80 30 sepia)
              [] [] [])
           Sample.pngImage "image/png");
    [reflexivity | discriminate | reflexivity | discriminate].
Defined.

(* ================================================================== *)
(** * More on the client and the preview *)
(* ================================================================== *)

Lemma existsb_find {A : Type} (p : A -> bool) (xs : list A) :
  existsb p xs = true -> exists x, Js.find p xs = Some x /\ p x = true.
Proof.
  unfold Js.find. induction xs as [|y xs IH]; simpl; [discriminate |].
  destruct (p y) eqn:E; simpl; [intros _; now exists y | exact IH].
Qed.

(** X16.  The client resolves exactly when the remote call is fulfilled and the
    first candidate of the response has a part with inline data.  Candidates
    after the first are never looked at: an image that is only in a later
    candidate, an empty candidate list, a missing list, and a rejected call
    all end in a rejection. *)
Theorem client_resolves_iff_first_candidate_has_image
  (remote : Remote.Request -> Remote.Outcome)
  (b64 : option string) (mime prompt : string) :
  (exists url,
     fst (Async.run remote (Gemini.enhanceImageWithGemini b64 mime prompt))
     = Async.Resolve url)
  <-> (exists response first others,
         remote (Gemini.request b64 mime prompt) = Remote.Fulfilled response
         /\ Remote.candidates response = Some (first :: others)
         /\ existsb (fun part => Gemini.isSome (Remote.inlineData part))
                    (Gemini.partsOf first) = true).
Proof.
  rewrite run_enhanceImageWithGemini. cbn [fst].
  unfold Gemini.settle, Gemini.tryBlock, Gemini.imageResponsePart, Js.at_,
    Gemini.partsOf.
  destruct (remote (Gemini.request b64 mime prompt)) as [response|reason].
  - destruct (Remote.candidates response) as [[|first others]|] eqn:Ec; cbn.
    + split; [intros [url E]; discriminate E |].
      intros (r & f & o & E & C & _). injection E as <-.
      rewrite Ec in C. discriminate C.
    + destruct (Gemini.chain (Remote.content first) Remote.parts) as [ps|] eqn:Ep;
        cbn.
      * destruct (existsb (fun part => Gemini.isSome (Remote.inlineData part)) ps)
          eqn:Ex.
        -- destruct (existsb_find _ _ Ex) as (part & -> & Hpart).
           destruct (Remote.inlineData part) as [blob|]; [| discriminate Hpart].
           split; [| intros _; now eexists].
           intros _. exists response, first, others.
           rewrite Ec, Ep. auto.
        -- rewrite (find_absent _ _ Ex).
           split; [intros [url E]; discriminate E |].
           intros (r & f & o & E & C & X). injection E as <-.
           rewrite Ec in C. injection C as <- <-. rewrite Ep, Ex in X.
           discriminate X.
      * split; [intros [url E]; discriminate E |].
        intros (r & f & o & E & C & X). injection E as <-.
        rewrite Ec in C. injection C as <- <-. rewrite Ep in X. discriminate X.
    + split; [intros [url E]; discriminate E |].
      intros (r & f & o & E & C & _). injection E as <-.
      rewrite Ec in C. discriminate C.
  - split; [intros [url E]; discriminate E |].
    intros (r & f & o & E & _). discriminate E.
Qed.

(** X17.  Among the failures of the remote call that are [Error]s, the client
    reports a rate limit exactly for those whose message has "429" somewhere
    in it, at any position; every other one is reported with the generic
    message. *)
Theorem rate_limit_iff_message_mentions_429
  (remote : Remote.Request -> Remote.Outcome)
  (b64 : option string) (mime prompt message : string) :
  remote (Gemini.request b64 mime prompt)
  = Remote.Rejected (Remote.ErrorObj message) ->
  let result :=
    fst (Async.run remote (Gemini.enhanceImageWithGemini b64 mime prompt)) in
  (result = Async.Reject (Remote.ErrorObj Gemini.rateLimitMessage)
   <-> exists before after, message = (before ++ "429" ++ after)%string)
  /\ (result = Async.Reject (Remote.ErrorObj Gemini.genericMessage)
      <-> ~ exists before after, message = (before ++ "429" ++ after)%string).
Proof.
  intros Hremote result. subst result.
  rewrite run_enhanceImageWithGemini, Hremote. cbn [fst].
  rewrite (settle_of_throw _ (Remote.ErrorObj message)) by reflexivity.
  cbn [Gemini.isRateLimit]. rewrite <- includes_spec.
  destruct (Js.includes "429" message); split; split;
    try reflexivity; try discriminate; intros H; try (now elim H).
Qed.

Lemma rate_limit_witness :
  fst (Async.run (fun _ => Remote.Rejected Sample.networkError)
         (Gemini.enhanceImageWithGemini None "image/png" Prompt.basePrompt))
  <> Async.Reject (Remote.ErrorObj Gemini.rateLimitMessage).
Proof.
  destruct (rate_limit_iff_message_mentions_429
              (fun _ => Remote.Rejected Sample.networkError)
              None "image/png" Prompt.basePrompt "fetch failed" eq_refl)
    as [[H _] _].
  intros E. destruct (H E) as (before & after & C).
  assert (I : Js.includes "429" "fetch failed" = true)
    by (apply includes_spec; now exists before, after).
  discriminate I.
Defined.

(** X18.  The preview filter determines the settings it was computed from:
    different brightness, contrast or effect give different filter strings,
    so every change of these settings changes the preview. *)
Theorem preview_filter_is_injective
  (b c b' c' : Z) (e e' : ArtisticEffect) :
  Preview.computedFilter b c e = Preview.computedFilter b' c' e' ->
  b = b' /\ c = c' /\ e = e'.
Proof.
  intros E. apply (f_equal Preview.parseFilter) in E.
  rewrite !computedFilter_renderOps in E. unfold Preview.specOps in E.
  rewrite !parseFilter_renderOps in E.
  injection E as -> -> E. repeat split.
  destruct e, e'; try discriminate E; reflexivity.
Qed.

Lemma preview_filter_witness :
  Preview.computedFilter 120 80 sketch = Preview.computedFilter 120 80 sketch
  /\ sketch = sketch.
Proof.
  split; [reflexivity |].
  destruct (preview_filter_is_injective 120 80 120 80 sketch sketch eq_refl)
    as (_ & _ & H). exact H.
Defined.

Lemma client_resolves_witness :
  ~ exists url,
      fst (Async.run
             (fun _ => Remote.Fulfilled
                {| Remote.candidates := Some
                     [ {| Remote.content := Some {| Remote.parts := Some
                            [ {| Remote.inlineData := None;
                                 Remote.text := Some "No image here."%string |} ] |} |};
                       {| Remote.content := Some {| Remote.parts := Some
                            [ {| Remote.inlineData := Some Sample.jpegBlob;
                                 Remote.text := None |} ] |} |} ] |})
             (Gemini.enhanceImageWithGemini None "image/png" Prompt.basePrompt))
      = Async.Resolve url.
Proof.
  intros H.
  apply client_resolves_iff_first_candidate_has_image in H.
  destruct H as (response & first & others & E & C & X).
  injection E as <-. injection C as <- _. discriminate X.
Defined.

Lemma compilePrompt_effect_suffix (b c n : Z) (e : ArtisticEffect) :
  Prompt.compilePrompt b c n e
  = (Prompt.compilePrompt b c n none
       ++ match Prompt.effectClause e with
          | Some clause => clause
          | None => ""
          end)%string.
Proof.
  destruct e; try reflexivity. cbn [Prompt.effectClause].
  now rewrite append_nil_r.
Qed.

(** X19.  The two effect tables agree on which effects do something: an effect
    changes the prompt (compared with no effect) exactly when it changes the
    preview filter, and that is exactly when it is not [none]. *)
Theorem prompt_and_preview_agree_on_active_effects
  (b c n : Z) (e : ArtisticEffect) :
  (Prompt.compilePrompt b c n e = Prompt.compilePrompt b c n none <-> e = none)
  /\ (Preview.computedFilter b c e = Preview.computedFilter b c none
      <-> e = none)
  /\ (Prompt.compilePrompt b c n e <> Prompt.compilePrompt b c n none
      <-> Preview.computedFilter b c e <> Preview.computedFilter b c none).
Proof.
  assert (HP : Prompt.compilePrompt b c n e = Prompt.compilePrompt b c n none
               <-> e = none).
  { split; [| now intros ->].
    rewrite compilePrompt_effect_suffix. intros E.
    apply append_eq_self in E. destruct e; [reflexivity | discriminate E ..]. }
  assert (HF : Preview.computedFilter b c e = Preview.computedFilter b c none
               <-> e = none).
  { split; [| now intros ->].
    intros E. apply (f_equal Preview.parseFilter) in E.
    rewrite !computedFilter_renderOps in E. unfold Preview.specOps in E.
    rewrite !parseFilter_renderOps in E.
    destruct e; [reflexivity | discriminate E ..]. }
  split; [exact HP |]. split; [exact HF |].
  rewrite HP, HF. reflexivity.
Qed.
